(** * CHaT: presence and message-broadcast core of the chat relay

    A shallow embedding of [server.js] (the Socket.IO handlers [join],
    [send-message], [typing], [disconnect], the routes [/api/messages] and
    [/api/users], and [connectDB]) and of [ChatApp.joinChat] from
    [public/app.js], followed by the properties of the specification that
    concern them.

    Conventions of the embedding:
    - a JavaScript string is a [string] of code units below 256;
    - a payload received over the transport is a [JsVal] (JSON-shaped);
    - [new Date()] is an explicit argument of the handler that reads it;
    - the outcome of a Mongoose call (resolve or reject) is an explicit
      argument of the handler that awaits it;
    - a handler is a function from the server state to a [Completion]:
      either the new state with the events it emitted, or a thrown error;
    - the one handler that can suspend, [send-message] while the store is
      connected, is given both in one piece and split at its [await]. *)

From stdpp Require Import base option list strings gmap sorting.
From Stdlib Require Import ZArith Lia.

Local Open Scope Z_scope.
Local Open Scope string_scope.
Local Open Scope list_scope.

(** ** JavaScript values and completions *)

#[warnings="-register-all"]
Inductive JsVal : Type :=
| JUndefined
| JNull
| JBool (b : bool)
| JNum (n : Z)
| JStr (s : string)
| JObj (fields : list (string * JsVal)).

Inductive JsError : Type :=
| TypeError (msg : string).

Inductive Completion (A : Type) : Type :=
| Normal (a : A)
| Throw (e : JsError).

Arguments Normal {A} a.
Arguments Throw {A} e.

(** Sequencing of completions: a thrown error skips the rest of the
    handler body. *)
#[global] Instance Completion_ret : MRet Completion := fun A a => Normal a.

#[global] Instance Completion_bind : MBind Completion := fun A B k c =>
  match c with
  | Normal a => k a
  | Throw e => Throw e
  end.

Definition completes {A : Type} (c : Completion A) : bool :=
  match c with
  | Normal _ => true
  | Throw _ => false
  end.

(** [ToBoolean]. *)
Definition truthy (v : JsVal) : bool :=
  match v with
  | JUndefined | JNull => false
  | JBool b => b
  | JNum n => negb (n =? 0)%Z
  | JStr s => negb (String.eqb s "")
  | JObj _ => true
  end.

Fixpoint assoc {A : Type} (k : string) (l : list (string * A)) : option A :=
  match l with
  | [] => None
  | (k', v) :: r => if String.eqb k k' then Some v else assoc k r
  end.

(** [v.k] for a property name [k] that no built-in prototype defines
    ([message], [isTyping]): reading it off [undefined] or [null] throws,
    off a primitive gives [undefined], off an object gives the field. *)
Definition get_prop (v : JsVal) (k : string) : Completion JsVal :=
  match v with
  | JUndefined =>
      Throw (TypeError ("Cannot read properties of undefined (reading '" +:+ k +:+ "')"))
  | JNull =>
      Throw (TypeError ("Cannot read properties of null (reading '" +:+ k +:+ "')"))
  | JObj fields =>
      Normal (match assoc k fields with Some x => x | None => JUndefined end)
  | JBool _ | JNum _ | JStr _ => Normal JUndefined
  end.

(** ECMAScript white space and line terminators among the code units
    below 256: TAB, LF, VT, FF, CR, SP and NBSP. *)
Definition is_js_space (a : Ascii.ascii) : bool :=
  let n := Ascii.nat_of_ascii a in
  ((9 <=? n)%nat && (n <=? 13)%nat) || (n =? 32)%nat || (n =? 160)%nat.

Fixpoint trimStart (s : string) : string :=
  match s with
  | EmptyString => EmptyString
  | String a r => if is_js_space a then trimStart r else s
  end.

Fixpoint trimEnd (s : string) : string :=
  match s with
  | EmptyString => EmptyString
  | String a r =>
      match trimEnd r with
      | EmptyString => if is_js_space a then EmptyString else String a EmptyString
      | r' => String a r'
      end
  end.

(** [String.prototype.trim]. *)
Definition trim (s : string) : string := trimEnd (trimStart s).

(** [v.trim()]: only a string has a callable [trim]. *)
Definition call_trim (v : JsVal) : Completion string :=
  match v with
  | JStr s => Normal (trim s)
  | JUndefined =>
      Throw (TypeError "Cannot read properties of undefined (reading 'trim')")
  | JNull =>
      Throw (TypeError "Cannot read properties of null (reading 'trim')")
  | JBool _ | JNum _ | JObj _ => Throw (TypeError "trim is not a function")
  end.

(** [arr.slice(-n)] for [n > 0]: the last [n] elements, or the whole array
    when it is shorter. *)
Definition slice_last {A : Type} (n : nat) (l : list A) : list A :=
  drop (length l - n)%nat l.

(** ** A JavaScript [Map] with string keys

    Iteration follows insertion order; [set] on a present key replaces the
    value where the key already stands. *)
Module JsMap.

Definition t (V : Type) : Type := list (string * V).

Definition empty {V : Type} : t V := [].

Fixpoint set {V : Type} (k : string) (v : V) (m : t V) : t V :=
  match m with
  | [] => [(k, v)]
  | (k', v') :: r =>
      if String.eqb k k' then (k, v) :: r else (k', v') :: set k v r
  end.

Fixpoint delete {V : Type} (k : string) (m : t V) : t V :=
  match m with
  | [] => []
  | (k', v') :: r =>
      if String.eqb k k' then r else (k', v') :: delete k r
  end.

Definition get {V : Type} (k : string) (m : t V) : option V := assoc k m.

Definition keys {V : Type} (m : t V) : list string := map fst m.

Definition entries {V : Type} (m : t V) : list (string * V) := m.

(** No key occurs twice: what a [Map] built by [set] and [delete]
    satisfies. *)
Definition wf {V : Type} (m : t V) : Prop := NoDup (keys m).

End JsMap.

(** ** Data model of [server.js] *)

Definition SocketId : Type := string.
Definition Time : Type := Z.

(** A document of [messageSchema], and the [messageData] object of the
    [send-message] handler. *)
Record MessageData : Type := mkMessageData {
  username : string;
  message : string;
  timestamp : Time
}.

(** A value of the [activeUsers] map. *)
Record UserInfo : Type := mkUserInfo {
  id : SocketId;
  joinedAt : Time
}.

(** A socket object: its [username] property ([None] is [undefined]) and
    whether the transport still has the connection open. *)
Record Socket : Type := mkSocket {
  socket_username : option string;
  connected : bool
}.

Record Server : Type := mkServer {
  isDbConnected : bool;
  memoryMessages : list MessageData;
  activeUsers : JsMap.t UserInfo;
  sockets : gmap SocketId Socket;
  collection : list MessageData
}.

Definition initial : Server :=
  {| isDbConnected := false;
     memoryMessages := [];
     activeUsers := JsMap.empty;
     sockets := ∅;
     collection := [] |}.

(** ** Events sent to clients *)

Inductive Event : Type :=
| EvError (reason : string)
| EvUserJoined (name : string) (at_ : Time)
| EvUsersUpdate (userList : list string)
| EvNewMessage (messageData : MessageData)
| EvUserTyping (name : string) (isTyping : JsVal)
| EvUserLeft (name : string) (at_ : Time).

Definition event_name (e : Event) : string :=
  match e with
  | EvError _ => "error"
  | EvUserJoined _ _ => "user-joined"
  | EvUsersUpdate _ => "users-update"
  | EvNewMessage _ => "new-message"
  | EvUserTyping _ _ => "user-typing"
  | EvUserLeft _ _ => "user-left"
  end.

(** [socket.emit], [socket.broadcast.emit] and [io.emit]. *)
Inductive Target : Type :=
| ToSocket (sid : SocketId)
| ToOthers (sid : SocketId)
| ToAll.

Definition Emission : Type := Target * Event.

Definition is_connected (s : Server) (sid : SocketId) : bool :=
  match sockets s !! sid with
  | Some k => connected k
  | None => false
  end.

(** Whether the connection [r] receives an emission addressed to [t]. *)
Definition receives (s : Server) (t : Target) (r : SocketId) : bool :=
  is_connected s r &&
  match t with
  | ToSocket sid => String.eqb sid r
  | ToOthers sid => negb (String.eqb sid r)
  | ToAll => true
  end.

Definition count_event (name : string) (out : list Emission) : nat :=
  length (List.filter (fun e => String.eqb (event_name (snd e)) name) out).

(** ** The durable store (the Mongoose [Message] model) *)

(** [m1] comes no later than [m2] in the order of [sort({timestamp: -1})]. *)
Definition newer_first (m1 m2 : MessageData) : Prop :=
  timestamp m2 <= timestamp m1.

Definition older_first (m1 m2 : MessageData) : Prop :=
  timestamp m1 <= timestamp m2.

#[local] Instance newer_first_dec : RelDecision newer_first.
Proof. intros m1 m2. unfold newer_first. apply _. Defined.

#[local] Instance older_first_dec : RelDecision older_first.
Proof. intros m1 m2. unfold older_first. apply _. Defined.

(** [Message.find().sort({timestamp: -1}).limit(50).lean()]; [fault] is
    whether the query rejects. *)
Definition db_find_recent (fault : bool) (docs : list MessageData)
  : Completion (list MessageData) :=
  if fault then Throw (TypeError "query failed")
  else Normal (take 50 (merge_sort newer_first docs)).

(** [new Message(messageData).save()]; [fault] is whether it rejects. *)
Definition db_save (fault : bool) (m : MessageData) (docs : list MessageData)
  : Completion (list MessageData) :=
  if fault then Throw (TypeError "save failed")
  else Normal (docs ++ [m]).

(** ** State updates *)

Definition set_isDbConnected (b : bool) (s : Server) : Server :=
  {| isDbConnected := b;
     memoryMessages := memoryMessages s;
     activeUsers := activeUsers s;
     sockets := sockets s;
     collection := collection s |}.

Definition set_memoryMessages (l : list MessageData) (s : Server) : Server :=
  {| isDbConnected := isDbConnected s;
     memoryMessages := l;
     activeUsers := activeUsers s;
     sockets := sockets s;
     collection := collection s |}.

Definition set_activeUsers (m : JsMap.t UserInfo) (s : Server) : Server :=
  {| isDbConnected := isDbConnected s;
     memoryMessages := memoryMessages s;
     activeUsers := m;
     sockets := sockets s;
     collection := collection s |}.

Definition set_sockets (m : gmap SocketId Socket) (s : Server) : Server :=
  {| isDbConnected := isDbConnected s;
     memoryMessages := memoryMessages s;
     activeUsers := activeUsers s;
     sockets := m;
     collection := collection s |}.

Definition set_collection (l : list MessageData) (s : Server) : Server :=
  {| isDbConnected := isDbConnected s;
     memoryMessages := memoryMessages s;
     activeUsers := activeUsers s;
     sockets := sockets s;
     collection := l |}.

(** [socket.username] of the socket [sid]. *)
Definition username_of (s : Server) (sid : SocketId) : option string :=
  sockets s !! sid ≫= socket_username.

(** [ToBoolean(socket.username)]: [undefined] and the empty string are
    falsy. *)
Definition truthy_name (o : option string) : bool :=
  match o with
  | Some n => negb (String.eqb n "")
  | None => false
  end.

Definition name_or_empty (o : option string) : string := default "" o.

(** [socket.username = n]. *)
Definition assign_username (sid : SocketId) (n : string) (s : Server) : Server :=
  set_sockets
    (<[sid := {| socket_username := Some n; connected := is_connected s sid |}]>
       (sockets s)) s.

(** ** [connectDB] *)

(** [connect_ok] is whether [mongoose.connect] resolved. *)
Definition connectDB (connect_ok : bool) (s : Server) : Server :=
  if connect_ok then set_isDbConnected true s else set_isDbConnected false s.

(** ** Socket handlers *)

Definition Handled : Type := Completion (Server * list Emission).

(** [socket.on('join', (username) => ...)]; [t_joined] and [t_emit] are the
    two readings of the clock. *)
Definition on_join (sid : SocketId) (payload : JsVal) (t_joined t_emit : Time)
    (s : Server) : Handled :=
  let reject := Normal (s, [(ToSocket sid, EvError "Username is required")]) in
  if negb (truthy payload) then reject
  else
    n ← call_trim payload;
    if String.eqb n "" then reject
    else
      let s1 := assign_username sid n s in
      let s2 :=
        set_activeUsers
          (JsMap.set n {| id := sid; joinedAt := t_joined |} (activeUsers s1)) s1 in
      Normal (s2, [(ToOthers sid, EvUserJoined n t_emit);
                   (ToAll, EvUsersUpdate (JsMap.keys (activeUsers s2)))]).

(** [memoryMessages.push(messageData)] followed by the cap at 100. *)
Definition push_message (m : MessageData) (buf : list MessageData)
  : list MessageData :=
  let buf1 := buf ++ [m] in
  if (100 <? length buf1)%nat then slice_last 100 buf1 else buf1.

(** The [try { await dbMessage.save() } catch] block of [send-message]. *)
Definition try_save (save_fault : bool) (m : MessageData) (s : Server) : Server :=
  if isDbConnected s then
    match db_save save_fault m (collection s) with
    | Normal docs => set_collection docs s
    | Throw _ => s
    end
  else s.

(** [socket.on('send-message', async (data) => ...)], run to its end in one
    step: the handler together with the settling of [dbMessage.save()],
    [save_fault] telling whether it rejects, and no other handler in
    between. While the store is not connected the handler has no [await] to
    stop at and this is the handler as it runs. With the store connected the
    handler suspends at [await dbMessage.save()], after the push and before
    the [io.emit]; [send_message_start] and [send_message_settle] below are
    the two parts, and [interleave] runs them with other handlers in
    between. *)
Definition on_send_message (sid : SocketId) (data : JsVal) (now : Time)
    (save_fault : bool) (s : Server) : Handled :=
  if negb (truthy_name (username_of s sid)) then
    Normal (s, [(ToSocket sid, EvError "You must join first")])
  else
    field ← get_prop data "message";
    body ← call_trim field;
    let messageData :=
      {| username := name_or_empty (username_of s sid);
         message := body;
         timestamp := now |} in
    if String.eqb (message messageData) "" then Normal (s, [])
    else
      let s1 := set_memoryMessages (push_message messageData (memoryMessages s)) s in
      let s2 := try_save save_fault messageData s1 in
      Normal (s2, [(ToAll, EvNewMessage messageData)]).

(** [socket.on('typing', (data) => ...)]. *)
Definition on_typing (sid : SocketId) (data : JsVal) (s : Server) : Handled :=
  if truthy_name (username_of s sid) then
    flag ← get_prop data "isTyping";
    Normal (s, [(ToOthers sid,
                 EvUserTyping (name_or_empty (username_of s sid)) flag)])
  else Normal (s, []).

(** [socket.on('disconnect', () => ...)]. *)
Definition on_disconnect (sid : SocketId) (now : Time) (s : Server) : Handled :=
  if truthy_name (username_of s sid) then
    let n := name_or_empty (username_of s sid) in
    let s1 := set_activeUsers (JsMap.delete n (activeUsers s)) s in
    Normal (s1, [(ToOthers sid, EvUserLeft n now);
                 (ToAll, EvUsersUpdate (JsMap.keys (activeUsers s1)))])
  else Normal (s, []).

(** ** The transport *)

(** [io.on('connection', (socket) => ...)]: a fresh socket object, with no
    [username], whose handlers are now registered. *)
Definition on_connection (sid : SocketId) (s : Server) : Server :=
  match sockets s !! sid with
  | Some _ => s
  | None =>
      set_sockets
        (<[sid := {| socket_username := None; connected := true |}]> (sockets s)) s
  end.

(** The transport closes the connection before it fires [disconnect]; the
    socket object keeps its properties. *)
Definition close_socket (sid : SocketId) (s : Server) : Server :=
  match sockets s !! sid with
  | Some k =>
      set_sockets
        (<[sid := {| socket_username := socket_username k; connected := false |}]>
           (sockets s)) s
  | None => s
  end.

(** ** Routes *)

Record MessagesResponse : Type := mkMessagesResponse {
  messages : list MessageData;
  source : string
}.

(** [app.get('/api/messages', ...)]; [find_fault] is whether the query
    rejects. *)
Definition api_messages (find_fault : bool) (s : Server) : MessagesResponse :=
  if isDbConnected s then
    match db_find_recent find_fault (collection s) with
    | Normal found => {| messages := reverse found; source := "database" |}
    | Throw _ =>
        {| messages := slice_last 50 (memoryMessages s);
           source := "memory-fallback" |}
    end
  else {| messages := slice_last 50 (memoryMessages s); source := "memory" |}.

(** [app.get('/api/users', ...)]: pairs of [username] and [joinedAt]. *)
Definition api_users (s : Server) : list (string * Time) :=
  map (fun e => (fst e, joinedAt (snd e))) (JsMap.entries (activeUsers s)).

(** ** The process: inputs, one step, a run *)

Inductive Input : Type :=
| InConnectDB (connect_ok : bool)
| InConnection (sid : SocketId)
| InJoin (sid : SocketId) (payload : JsVal) (t_joined t_emit : Time)
| InSendMessage (sid : SocketId) (data : JsVal) (now : Time) (save_fault : bool)
| InTyping (sid : SocketId) (data : JsVal)
| InDisconnect (sid : SocketId) (now : Time)
| InGetMessages (find_fault : bool)
| InGetUsers.

Inductive Output : Type :=
| OutEmit (e : Emission)
| OutMessages (r : MessagesResponse)
| OutUsers (users : list (string * Time)).

Definition emitted (h : Handled) : Completion (Server * list Output) :=
  r ← h; Normal (fst r, map OutEmit (snd r)).

(** An event of a socket reaches its handler only while the connection is
    open. *)
Definition step (i : Input) (s : Server) : Completion (Server * list Output) :=
  match i with
  | InConnectDB ok => Normal (connectDB ok s, [])
  | InConnection sid => Normal (on_connection sid s, [])
  | InJoin sid payload t1 t2 =>
      if is_connected s sid then emitted (on_join sid payload t1 t2 s)
      else Normal (s, [])
  | InSendMessage sid data now fault =>
      if is_connected s sid then emitted (on_send_message sid data now fault s)
      else Normal (s, [])
  | InTyping sid data =>
      if is_connected s sid then emitted (on_typing sid data s)
      else Normal (s, [])
  | InDisconnect sid now =>
      if is_connected s sid then emitted (on_disconnect sid now (close_socket sid s))
      else Normal (s, [])
  | InGetMessages fault => Normal (s, [OutMessages (api_messages fault s)])
  | InGetUsers => Normal (s, [OutUsers (api_users s)])
  end.

(** A run of the process over a sequence of inputs: the final state and
    everything sent, or the first error a handler threw. *)
Fixpoint run (inputs : list Input) (s : Server)
  : Completion (Server * list Output) :=
  match inputs with
  | [] => Normal (s, [])
  | i :: rest =>
      r1 ← step i s;
      r2 ← run rest (fst r1);
      Normal (fst r2, snd r1 ++ snd r2)
  end.

(** [connectDB()] is called once, at start-up; every later input is a
    socket event or a request. *)
Definition is_request (i : Input) : bool :=
  match i with
  | InConnectDB _ => false
  | _ => true
  end.

(** ** [ChatApp.joinChat] of the client *)

Record Client : Type := mkClient {
  currentUser : option string;
  joinModalHidden : bool
}.

Inductive ClientEffect : Type :=
| ShowError (msg : string)
| SocketEmitJoin (name : string)
| LoadMessages.

(** [value] is [usernameInput.value]. Of the effects of [joinChat] the
    model keeps the error shown, the [join] emitted and the call of
    [loadMessages]; the updates of the page are left out. *)
Definition joinChat (value : string) (c : Client) : Client * list ClientEffect :=
  let name := trim value in
  if String.eqb name "" then (c, [ShowError "Please enter a username"])
  else if (20 <? String.length name)%nat then
    (c, [ShowError "Username must be 20 characters or less"])
  else
    ({| currentUser := Some name; joinModalHidden := true |},
     [SocketEmitJoin name; LoadMessages]).

(** ** Auxiliary definitions for the statements *)

(** The state of a freshly started process whose store already holds
    [docs]. *)
Definition boot (docs : list MessageData) : Server := set_collection docs initial.

(** A connection that is open and has joined. *)
Definition Active (s : Server) (sid : SocketId) : Prop :=
  is_connected s sid = true /\ truthy_name (username_of s sid) = true.

(** A connection that is open and has never joined. *)
Definition Unidentified (s : Server) (sid : SocketId) : Prop :=
  is_connected s sid = true /\ username_of s sid = None.

(** The [{message: body}] payload the client sends. *)
Definition message_payload (body : string) : JsVal := JObj [("message", JStr body)].


(** The state after the [join] handler accepted [name] on [sid]. *)
Definition joined (sid : SocketId) (name : string) (t_joined : Time) (s : Server)
  : Server :=
  set_activeUsers
    (JsMap.set name {| id := sid; joinedAt := t_joined |} (activeUsers s))
    (assign_username sid name s).

(** Pushing the messages [ms] one after the other. *)
Definition push_all (ms buf : list MessageData) : list MessageData :=
  foldl (fun b m => push_message m b) buf ms.

(** One [send-message] of the client: the body typed, the time the handler
    reads and whether the save rejects. *)
Record Send : Type := mkSend {
  send_body : string;
  send_now : Time;
  send_save_fault : bool
}.

Definition send_input (sid : SocketId) (x : Send) : Input :=
  InSendMessage sid (message_payload (send_body x)) (send_now x) (send_save_fault x).

(** The [messageData] the handler builds for [x] sent under [name]. *)
Definition sent_message (name : string) (x : Send) : MessageData :=
  {| username := name; message := trim (send_body x); timestamp := send_now x |}.

(** Sends number 1 to [n], each stamped with its number. *)
Definition numbered_sends (n : nat) : list Send :=
  map (fun k => {| send_body := " message ";
                   send_now := Z.of_nat k;
                   send_save_fault := false |}) (seq 1 n).

(** ** The rest of the client ([public/app.js]) *)

(** A JavaScript [Set] of strings: iteration follows insertion order and
    [add] of a present element changes nothing. *)
Module JsSet.

Definition t : Type := list string.

Definition empty : t := [].

Definition has (x : string) (s : t) : bool := existsb (String.eqb x) s.

Definition add (x : string) (s : t) : t := if has x s then s else s ++ [x].

Fixpoint delete (x : string) (s : t) : t :=
  match s with
  | [] => []
  | y :: r => if String.eqb x y then r else y :: delete x r
  end.

Definition to_array (s : t) : list string := s.

End JsSet.

(** [this.isTyping] and whether the timeout of [this.typingTimer] is still
    pending. *)
Record TypingState : Type := mkTypingState {
  isTyping : bool;
  typingTimer : bool
}.

(** What the client emits on its socket besides [join]. *)
Inductive ClientEmit : Type :=
| EmitTyping (flag : bool)
| EmitSendMessage (body : string).

(** [clearTyping()]. *)
Definition clearTyping (st : TypingState) : TypingState * list ClientEmit :=
  if isTyping st then
    ({| isTyping := false; typingTimer := false |}, [EmitTyping false])
  else ({| isTyping := isTyping st; typingTimer := false |}, []).

(** [handleTyping()]: the old timeout is cleared and a new one is set. *)
Definition handleTyping (st : TypingState) : TypingState * list ClientEmit :=
  if negb (isTyping st) then
    ({| isTyping := true; typingTimer := true |}, [EmitTyping true])
  else ({| isTyping := isTyping st; typingTimer := true |}, []).

(** The callback of [setTimeout(() => this.clearTyping(), 1000)]: it runs
    only while its timeout is pending. *)
Definition typing_timeout (st : TypingState) : TypingState * list ClientEmit :=
  if typingTimer st then
    clearTyping {| isTyping := isTyping st; typingTimer := false |}
  else (st, []).

(** [sendMessage()]: [value] is [messageInput.value]; the result carries the
    new value of the input. *)
Definition sendMessage (value : string) (st : TypingState)
  : (string * TypingState) * list ClientEmit :=
  let body := trim value in
  if String.eqb body "" then ((value, st), [])
  else
    let r := clearTyping st in
    (("", fst r), snd r ++ [EmitSendMessage body]).

(** What the user does to the message box. *)
Inductive TypingAction : Type :=
| KeyInput
| TimerFires
| Submit (value : string).

Definition typing_step (a : TypingAction) (st : TypingState)
  : TypingState * list ClientEmit :=
  match a with
  | KeyInput => handleTyping st
  | TimerFires => typing_timeout st
  | Submit value => let r := sendMessage value st in (snd (fst r), snd r)
  end.

Fixpoint typing_run (acts : list TypingAction) (st : TypingState)
  : TypingState * list ClientEmit :=
  match acts with
  | [] => (st, [])
  | a :: rest =>
      let r1 := typing_step a st in
      let r2 := typing_run rest (fst r1) in
      (fst r2, snd r1 ++ snd r2)
  end.

(** The [isTyping] values of the [typing] events among [out]. *)
Definition typing_flags (out : list ClientEmit) : list bool :=
  flat_map (fun e => match e with
                     | EmitTyping flag => [flag]
                     | EmitSendMessage _ => []
                     end) out.

(** Each flag differs from the one before it, [prev] coming first. *)
Fixpoint alternates (prev : bool) (flags : list bool) : bool :=
  match flags with
  | [] => true
  | b :: rest => Bool.eqb b (negb prev) && alternates b rest
  end.

(** The [{isTyping: flag}] payload the client sends. *)
Definition typing_payload (flag : bool) : JsVal := JObj [("isTyping", JBool flag)].

(** The input the server gets for an emission of the client on the
    connection [sid]. *)
Definition emit_input (sid : SocketId) (now : Time) (save_fault : bool)
    (e : ClientEmit) : Input :=
  match e with
  | EmitTyping flag => InTyping sid (typing_payload flag)
  | EmitSendMessage body => InSendMessage sid (message_payload body) now save_fault
  end.

(** [updateTypingIndicator()]: [None] when the indicator is hidden, else
    the text it is given, which is the first element of the set. *)
Definition updateTypingIndicator (ts : JsSet.t) : option string :=
  match JsSet.to_array ts with
  | [] => None
  | first :: _ => Some first
  end.

(** [handleUserTyping(data)] with [data.username] and [data.isTyping]. *)
Definition handleUserTyping (name : string) (flag : JsVal) (ts : JsSet.t)
  : JsSet.t * option string :=
  let ts' := if truthy flag then JsSet.add name ts else JsSet.delete name ts in
  (ts', updateTypingIndicator ts').

(** What an event from the server does to [this.typingUsers]: only the
    listener of [user-typing] touches the set. *)
Definition typing_on_event (e : Event) (ts : JsSet.t) : JsSet.t :=
  match e with
  | EvUserTyping name flag => fst (handleUserTyping name flag ts)
  | _ => ts
  end.

(** [username === this.currentUser]. *)
Definition is_current (name : string) (c : Client) : bool :=
  match currentUser c with
  | Some n => String.eqb name n
  | None => false
  end.

Inductive UserItem : Type :=
| UserRow (name : string)
| EmptyNotice.

Record UsersPanel : Type := mkUsersPanel {
  userCount : nat;
  usersList : list UserItem
}.

(** [updateUsersList(users)]: a row is kept by its name (the avatar and the
    markup are left out); [EmptyNotice] is the "No other users online"
    element. *)
Definition updateUsersList (users : list string) (c : Client) : UsersPanel :=
  {| userCount := length users;
     usersList :=
       map UserRow (List.filter (fun u => negb (is_current u c)) users) ++
       (if (length users =? 1)%nat then [EmptyNotice] else []) |}.

(** [updateStorageMode(source)]: the text of the badge. *)
Definition updateStorageMode (src : string) : string :=
  (if String.eqb src "database" then "Database" else "Memory") +:+ " Mode".

(** The side [addMessage] gives a message: [sent] when its author is the
    current user, [received] otherwise. *)
Inductive Side : Type :=
| SentSide
| ReceivedSide.

Definition message_side (data : MessageData) (c : Client) : Side :=
  if is_current (username data) c then SentSide else ReceivedSide.

(** The socket an input comes from, if any. *)
Definition input_socket (i : Input) : option SocketId :=
  match i with
  | InJoin sid _ _ _ | InSendMessage sid _ _ _ | InTyping sid _
  | InDisconnect sid _ | InConnection sid => Some sid
  | InConnectDB _ | InGetMessages _ | InGetUsers => None
  end.

(** The events among the outputs of a step. *)
Definition emissions (out : list Output) : list Emission :=
  flat_map (fun o => match o with
                     | OutEmit e => [e]
                     | _ => []
                     end) out.

(** A string that [trim] leaves as it is. *)
Definition trimmed (x : string) : Prop := trim x = x.

(** Every name the server holds (registry keys, socket names, authors of
    buffered messages) and every buffered body is non-empty and trimmed. *)
Definition well_named (s : Server) : Prop :=
  (forall k, k ∈ JsMap.keys (activeUsers s) -> k <> "" /\ trimmed k) /\
  (forall sid n, username_of s sid = Some n -> n <> "" /\ trimmed n) /\
  (forall m, m ∈ memoryMessages s ->
     (username m <> "" /\ trimmed (username m)) /\
     (message m <> "" /\ trimmed (message m))).

(** The target the server gives an event sent on behalf of [sid]. *)
Definition route (sid : SocketId) (e : Event) : Target :=
  match e with
  | EvError _ => ToSocket sid
  | EvUserJoined _ _ | EvUserLeft _ _ | EvUserTyping _ _ => ToOthers sid
  | EvUsersUpdate _ | EvNewMessage _ => ToAll
  end.

(** [this.typingUsers] after the client has handled the events among
    [out], in order. *)
Definition receive_typing (out : list Output) (ts : JsSet.t) : JsSet.t :=
  foldl (fun acc e => typing_on_event (snd e) acc) ts (emissions out).

(** The rows of a users panel. *)
Definition panel_rows (p : UsersPanel) : list string :=
  flat_map (fun it => match it with
                      | UserRow n => [n]
                      | EmptyNotice => []
                      end) (usersList p).

(** The messages of the [new-message] events among [out], in order. *)
Definition new_messages (out : list Output) : list MessageData :=
  flat_map (fun e => match snd e with
                     | EvNewMessage m => [m]
                     | _ => []
                     end) (emissions out).

(** ** [send-message] split at its suspension point *)

(** How the synchronous part of the handler ends: it returned, or it is
    suspended at [await dbMessage.save()] with [messageData] to save and to
    broadcast. *)
Inductive Suspension : Type :=
| Returned
| AwaitingSave (messageData : MessageData).

(** The handler of [send-message] up to its first suspension. An [async]
    function runs synchronously until its first [await]: the guard, the
    push and the cap come first; with [isDbConnected] false there is no
    [await] and the [io.emit] follows at once. *)
Definition send_message_start (sid : SocketId) (data : JsVal) (now : Time)
    (s : Server) : Completion (Server * list Emission * Suspension) :=
  if negb (truthy_name (username_of s sid)) then
    Normal (s, [(ToSocket sid, EvError "You must join first")], Returned)
  else
    field ← get_prop data "message";
    body ← call_trim field;
    let messageData :=
      {| username := name_or_empty (username_of s sid);
         message := body;
         timestamp := now |} in
    if String.eqb (message messageData) "" then Normal (s, [], Returned)
    else
      let s1 := set_memoryMessages (push_message messageData (memoryMessages s)) s in
      if isDbConnected s1 then Normal (s1, [], AwaitingSave messageData)
      else Normal (s1, [(ToAll, EvNewMessage messageData)], Returned).

(** The rest of the handler, run when the save settles: the [catch] when it
    rejected, then the [io.emit]. *)
Definition send_message_settle (save_fault : bool) (m : MessageData) (s : Server)
  : Server * list Emission :=
  (match db_save save_fault m (collection s) with
   | Normal docs => set_collection docs s
   | Throw _ => s
   end,
   [(ToAll, EvNewMessage m)]).

(** The process with its suspended handlers: [awaiting] holds the messages
    whose save has not settled yet. [pushed] is a history of the run, kept
    for the statements only: every message pushed onto [memoryMessages] so
    far, in the order of the pushes. *)
Record Process : Type := mkProcess {
  server : Server;
  awaiting : list MessageData;
  pushed : list MessageData
}.

(** The process at start-up, its store holding [docs]. *)
Definition fresh (docs : list MessageData) : Process :=
  {| server := boot docs; awaiting := []; pushed := [] |}.

(** What happens next in the process: an input handled in one piece by
    [step] (for a [send-message] this is the handler whose save settles
    before anything else runs, and what it pushed is what it broadcast); a
    [send-message] that runs up to its suspension; or the settling of the
    save of the handler at position [k] among those suspended. *)
Inductive Action : Type :=
| Handle (i : Input)
| SendStarts (sid : SocketId) (data : JsVal) (now : Time)
| SaveSettles (k : nat) (save_fault : bool).

Definition act (a : Action) (p : Process) : Completion (Process * list Output) :=
  match a with
  | Handle i =>
      r ← step i (server p);
      Normal ({| server := fst r;
                 awaiting := awaiting p;
                 pushed := pushed p ++ new_messages (snd r) |}, snd r)
  | SendStarts sid data now =>
      if is_connected (server p) sid then
        r ← send_message_start sid data now (server p);
        Normal (match snd r with
                | Returned =>
                    {| server := fst (fst r);
                       awaiting := awaiting p;
                       pushed := pushed p ++ new_messages (map OutEmit (snd (fst r))) |}
                | AwaitingSave m =>
                    {| server := fst (fst r);
                       awaiting := awaiting p ++ [m];
                       pushed := pushed p ++ [m] |}
                end, map OutEmit (snd (fst r)))
      else Normal (p, [])
  | SaveSettles k save_fault =>
      match awaiting p !! k with
      | Some m =>
          let q := send_message_settle save_fault m (server p) in
          Normal ({| server := fst q;
                     awaiting := delete k (awaiting p);
                     pushed := pushed p |}, map OutEmit (snd q))
      | None => Normal (p, [])
      end
  end.

(** A run of the process in which the handlers of [send-message] interleave
    with everything else. *)
Fixpoint interleave (acts : list Action) (p : Process)
  : Completion (Process * list Output) :=
  match acts with
  | [] => Normal (p, [])
  | a :: rest =>
      r1 ← act a p;
      r2 ← interleave rest (fst r1);
      Normal (fst r2, snd r1 ++ snd r2)
  end.

(** * Properties *)

(** ** Strings and [slice] *)

Lemma eqb_empty_false (n : string) : n <> "" -> String.eqb n "" = false.
Proof. intros H. by apply String.eqb_neq. Qed.

Lemma truthy_name_Some (o : option string) :
  truthy_name o = true -> exists n, o = Some n /\ n <> "".
Proof.
  destruct o as [n|]; simpl; [|done].
  intros H. exists n. split; [done|].
  intros ->. by rewrite String.eqb_refl in H.
Qed.

Lemma trim_long_nonempty (v : string) :
  (20 < String.length (trim v))%nat -> trim v <> "".
Proof. intros H E. rewrite E in H. simpl in H. lia. Qed.

Section Slice.
Context {A : Type}.
Implicit Types (l k : list A) (n : nat).

Lemma slice_last_length n l : (length (slice_last n l) <= n)%nat.
Proof. unfold slice_last. rewrite length_drop. lia. Qed.

Lemma slice_last_all n l : (length l <= n)%nat -> slice_last n l = l.
Proof.
  intros H. unfold slice_last.
  replace (length l - n)%nat with 0%nat by lia. done.
Qed.

Lemma slice_last_split n l :
  l = take (length l - n) l ++ slice_last n l.
Proof. unfold slice_last. by rewrite take_drop. Qed.

Lemma slice_last_app_slice n l k :
  slice_last n (slice_last n l ++ k) = slice_last n (l ++ k).
Proof.
  unfold slice_last.
  rewrite <- (drop_app_le l k (length l - n)) by lia.
  rewrite drop_drop, !length_drop, !length_app.
  f_equal. lia.
Qed.

Lemma slice_last_app_ge n l k :
  (n <= length k)%nat -> slice_last n (l ++ k) = slice_last n k.
Proof.
  intros H. unfold slice_last. rewrite length_app.
  replace (length l + length k - n)%nat
    with (length l + (length k - n))%nat by lia.
  by rewrite drop_app_add.
Qed.

Lemma slice_last_slice n m l :
  (n <= m)%nat -> slice_last n (slice_last m l) = slice_last n l.
Proof.
  intros H. unfold slice_last.
  rewrite drop_drop, length_drop. f_equal. lia.
Qed.
End Slice.

Lemma push_message_slice (m : MessageData) (buf : list MessageData) :
  push_message m buf = slice_last 100 (buf ++ [m]).
Proof.
  unfold push_message.
  destruct (Nat.ltb_spec 100 (length (buf ++ [m]))) as [H|H]; [done|].
  by rewrite slice_last_all.
Qed.

Lemma push_message_length (m : MessageData) (buf : list MessageData) :
  (length (push_message m buf) <= 100)%nat.
Proof. rewrite push_message_slice. apply slice_last_length. Qed.

Lemma push_message_last (m : MessageData) (buf : list MessageData) :
  last (push_message m buf) = Some m.
Proof.
  rewrite push_message_slice. unfold slice_last.
  rewrite drop_app_le by (rewrite length_app; simpl; lia).
  apply last_snoc.
Qed.

(** ** The [activeUsers] map *)

Module JsMapFacts.
Import JsMap.

Section Facts.
Context {V : Type}.
Implicit Types (m : t V) (k : string) (v : V).

Lemma get_None_keys k m : get k m = None <-> k ∉ keys m.
Proof.
  unfold get, keys. induction m as [|[k' v'] r IH]; simpl.
  - split; [intros _; apply not_elem_of_nil | done].
  - rewrite not_elem_of_cons. destruct (String.eqb_spec k k') as [->|Hne].
    + split; [done | intros [H _]; done].
    + rewrite IH. tauto.
Qed.

Lemma get_set_eq k v m : get k (set k v m) = Some v.
Proof.
  unfold get. induction m as [|[k' v'] r IH]; simpl.
  - by rewrite String.eqb_refl.
  - destruct (String.eqb_spec k k') as [->|Hne]; simpl.
    + by rewrite String.eqb_refl.
    + by rewrite (proj2 (String.eqb_neq k k') Hne).
Qed.

Lemma get_set_ne k k' v m : k <> k' -> get k' (set k v m) = get k' m.
Proof.
  intros Hne. unfold get. induction m as [|[k1 v1] r IH]; simpl.
  - by rewrite (proj2 (String.eqb_neq k' k)).
  - destruct (String.eqb_spec k k1) as [->|Hne1]; simpl.
    + by rewrite (proj2 (String.eqb_neq k' k1)).
    + by rewrite IH.
Qed.

Lemma keys_set_present k v m : k ∈ keys m -> keys (set k v m) = keys m.
Proof.
  unfold keys. induction m as [|[k' v'] r IH]; simpl.
  - intros H. by apply elem_of_nil in H.
  - intros H. destruct (String.eqb_spec k k') as [->|Hne]; simpl; [done|].
    apply elem_of_cons in H as [H|H]; [done|]. by rewrite IH.
Qed.

Lemma keys_set_absent k v m : k ∉ keys m -> keys (set k v m) = keys m ++ [k].
Proof.
  unfold keys. induction m as [|[k' v'] r IH]; simpl; [done|].
  rewrite not_elem_of_cons. intros [Hne H].
  rewrite (proj2 (String.eqb_neq k k') Hne). simpl. by rewrite IH.
Qed.

Lemma elem_of_keys_set k v m : k ∈ keys (set k v m).
Proof.
  destruct (decide (k ∈ keys m)) as [H|H].
  - by rewrite keys_set_present.
  - rewrite keys_set_absent by done. apply elem_of_app. right.
    apply list_elem_of_singleton. done.
Qed.

Lemma wf_set k v m : wf m -> wf (set k v m).
Proof.
  unfold wf. intros Hwf. destruct (decide (k ∈ keys m)) as [H|H].
  - by rewrite keys_set_present.
  - rewrite keys_set_absent by done. apply NoDup_app.
    split; [done|]. split; [|apply NoDup_singleton].
    intros x Hx Hk. apply list_elem_of_singleton in Hk. by subst.
Qed.

Lemma keys_delete_subseteq k m : keys (delete k m) ⊆ keys m.
Proof.
  unfold keys. induction m as [|[k' v'] r IH]; simpl; [done|].
  destruct (String.eqb k k'); simpl.
  - intros x Hx. by apply elem_of_cons; right.
  - intros x Hx. apply elem_of_cons in Hx as [->|Hx].
    + by apply elem_of_cons; left.
    + apply elem_of_cons; right. by apply IH.
Qed.

Lemma wf_delete k m : wf m -> wf (delete k m).
Proof.
  unfold wf, keys. induction m as [|[k' v'] r IH]; simpl; [done|].
  intros Hnd. apply NoDup_cons in Hnd as [Hk' Hr].
  destruct (String.eqb k k'); simpl; [done|].
  apply NoDup_cons. split; [|by apply IH].
  intros H. apply Hk'. by apply (keys_delete_subseteq k r).
Qed.

Lemma not_elem_of_keys_delete k m : wf m -> k ∉ keys (delete k m).
Proof.
  unfold wf, keys. induction m as [|[k' v'] r IH]; simpl.
  - intros _. apply not_elem_of_nil.
  - intros Hnd. apply NoDup_cons in Hnd as [Hk' Hr].
    destruct (String.eqb_spec k k') as [->|Hne]; simpl; [done|].
    apply not_elem_of_cons. split; [done | by apply IH].
Qed.

Lemma get_delete_eq k m : wf m -> get k (delete k m) = None.
Proof. intros H. apply get_None_keys. by apply not_elem_of_keys_delete. Qed.
End Facts.
End JsMapFacts.

(** ** Sockets *)

Lemma is_connected_close (sid r : SocketId) (s : Server) :
  is_connected (close_socket sid s) r =
  if decide (sid = r) then false else is_connected s r.
Proof.
  unfold close_socket, is_connected.
  destruct (sockets s !! sid) as [k|] eqn:E; simpl.
  - rewrite lookup_insert. case_decide; [done|]. done.
  - case_decide; [subst; by rewrite E | done].
Qed.

Lemma username_of_close (sid r : SocketId) (s : Server) :
  username_of (close_socket sid s) r = username_of s r.
Proof.
  unfold close_socket, username_of.
  destruct (sockets s !! sid) as [k|] eqn:E; simpl; [|done].
  rewrite lookup_insert. case_decide; [subst; by rewrite E | done].
Qed.

Lemma activeUsers_close (sid : SocketId) (s : Server) :
  activeUsers (close_socket sid s) = activeUsers s.
Proof. unfold close_socket. by destruct (sockets s !! sid). Qed.

Lemma is_connected_assign (sid r : SocketId) (n : string) (s : Server) :
  is_connected (assign_username sid n s) r = is_connected s r.
Proof.
  unfold assign_username, is_connected at 1. simpl.
  rewrite lookup_insert. case_decide; [by subst | done].
Qed.

Lemma username_of_assign (sid r : SocketId) (n : string) (s : Server) :
  username_of (assign_username sid n s) r =
  if decide (sid = r) then Some n else username_of s r.
Proof.
  unfold assign_username, username_of. simpl.
  rewrite lookup_insert. by case_decide.
Qed.

(** ** The handlers, case by case *)

Lemma on_join_accepts sid n t1 t2 s :
  trim n <> "" ->
  on_join sid (JStr n) t1 t2 s =
  Normal
    (set_activeUsers
       (JsMap.set (trim n) {| id := sid; joinedAt := t1 |} (activeUsers s))
       (assign_username sid (trim n) s),
     [(ToOthers sid, EvUserJoined (trim n) t2);
      (ToAll,
       EvUsersUpdate
         (JsMap.keys
            (JsMap.set (trim n) {| id := sid; joinedAt := t1 |} (activeUsers s))))]).
Proof.
  intros Hn. unfold on_join. simpl.
  destruct (String.eqb_spec n "") as [->|Hne]; [by destruct Hn|]. simpl.
  by rewrite (eqb_empty_false _ Hn).
Qed.

Lemma on_send_message_unjoined sid data now fault s :
  truthy_name (username_of s sid) = false ->
  on_send_message sid data now fault s =
  Normal (s, [(ToSocket sid, EvError "You must join first")]).
Proof. intros H. unfold on_send_message. by rewrite H. Qed.

Lemma on_send_message_blank sid data body now fault s :
  truthy_name (username_of s sid) = true ->
  get_prop data "message" = Normal (JStr body) ->
  trim body = "" ->
  on_send_message sid data now fault s = Normal (s, []).
Proof.
  intros Hu Hd Hb. unfold on_send_message. rewrite Hu, Hd. simpl.
  by rewrite Hb.
Qed.

Lemma on_send_message_valid sid data body now fault s :
  truthy_name (username_of s sid) = true ->
  get_prop data "message" = Normal (JStr body) ->
  trim body <> "" ->
  let m := {| username := name_or_empty (username_of s sid);
              message := trim body;
              timestamp := now |} in
  on_send_message sid data now fault s =
  Normal (try_save fault m (set_memoryMessages (push_message m (memoryMessages s)) s),
          [(ToAll, EvNewMessage m)]).
Proof.
  intros Hu Hd Hb. unfold on_send_message. rewrite Hu, Hd. simpl.
  by rewrite (eqb_empty_false _ Hb).
Qed.

Lemma try_save_memoryMessages fault m s :
  memoryMessages (try_save fault m s) = memoryMessages s.
Proof. unfold try_save, db_save. by destruct (isDbConnected s), fault. Qed.

Lemma try_save_sockets fault m s : sockets (try_save fault m s) = sockets s.
Proof. unfold try_save, db_save. by destruct (isDbConnected s), fault. Qed.

Lemma try_save_isDbConnected fault m s :
  isDbConnected (try_save fault m s) = isDbConnected s.
Proof.
  unfold try_save, db_save.
  destruct (isDbConnected s) eqn:E, fault; simpl; congruence.
Qed.

Lemma try_save_activeUsers fault m s :
  activeUsers (try_save fault m s) = activeUsers s.
Proof. unfold try_save, db_save. by destruct (isDbConnected s), fault. Qed.

Lemma try_save_collection fault m s :
  collection (try_save fault m s) =
  if isDbConnected s && negb fault then collection s ++ [m] else collection s.
Proof. unfold try_save, db_save. by destruct (isDbConnected s), fault. Qed.

(** ** Silent drop of blank bodies *)

(** C6: on an Active connection, a [send-message] whose body is empty after
    trimming leaves the whole server state as it was (nothing is added to
    the buffer or to the store) and emits nothing at all: no [new-message]
    and no [error]. *)
Theorem blank_send_is_silently_dropped sid data body now save_fault s :
  Active s sid ->
  get_prop data "message" = Normal (JStr body) ->
  trim body = "" ->
  on_send_message sid data now save_fault s = Normal (s, []) /\
  step (InSendMessage sid data now save_fault) s = Normal (s, []).
Proof.
  intros [Hc Hu] Hd Hb.
  pose proof (on_send_message_blank sid data body now save_fault s Hu Hd Hb) as E.
  split; [done|]. simpl. by rewrite Hc, E.
Qed.

Lemma blank_send_is_silently_dropped_witness :
  let s := joined "a" "alice" 1 (on_connection "a" initial) in
  step (InSendMessage "a" (message_payload "   ") 2 false) s = Normal (s, []).
Proof.
  intros s.
  apply (blank_send_is_silently_dropped "a" (message_payload "   ") "   " 2 false s).
  - split; vm_compute; reflexivity.
  - reflexivity.
  - reflexivity.
Defined.

(** ** Sending before joining *)

(** C7: a [send-message] from a connection that never joined, whatever its
    payload, emits exactly one [error] event, addressed to that connection
    and received by no other; the server state (buffer, store, registry,
    and the socket itself, still open and without a name) is unchanged. *)
Theorem send_before_join_is_rejected sid data now save_fault s :
  Unidentified s sid ->
  on_send_message sid data now save_fault s =
    Normal (s, [(ToSocket sid, EvError "You must join first")]) /\
  step (InSendMessage sid data now save_fault) s =
    Normal (s, [OutEmit (ToSocket sid, EvError "You must join first")]) /\
  receives s (ToSocket sid) sid = true /\
  (forall r, receives s (ToSocket sid) r = true -> r = sid).
Proof.
  intros [Hc Hu].
  assert (on_send_message sid data now save_fault s =
          Normal (s, [(ToSocket sid, EvError "You must join first")])) as E.
  { apply on_send_message_unjoined. by rewrite Hu. }
  split; [done|]. split; [simpl; by rewrite Hc, E|].
  unfold receives. split.
  - by rewrite Hc, String.eqb_refl.
  - intros r H. apply andb_true_iff in H as [_ H].
    symmetry. by apply String.eqb_eq.
Qed.

Lemma send_before_join_is_rejected_witness :
  let s := on_connection "a" initial in
  step (InSendMessage "a" (message_payload "hi") 2 false) s =
    Normal (s, [OutEmit (ToSocket "a", EvError "You must join first")]).
Proof.
  intros s.
  apply (send_before_join_is_rejected "a" (message_payload "hi") 2 false s).
  split; vm_compute; reflexivity.
Defined.

(** ** Validated sends *)

(** C8: on an Active connection, a [send-message] whose body is non-empty
    after trimming completes, whether or not the store is connected and
    whether or not the save rejects: the message is appended to the buffer,
    whose earlier entries all stay, in order, before it, except the oldest
    ones that the cap of 100 drops from the front (none while the buffer
    held fewer than 100); and one [new-message] goes to every open
    connection, the sender included. The store gains the message only when
    it is connected and the save resolves. *)
Theorem validated_send_is_buffered_and_broadcast sid data body now save_fault s :
  Active s sid ->
  get_prop data "message" = Normal (JStr body) ->
  trim body <> "" ->
  let m := {| username := name_or_empty (username_of s sid);
              message := trim body;
              timestamp := now |} in
  exists s',
    on_send_message sid data now save_fault s = Normal (s', [(ToAll, EvNewMessage m)]) /\
    step (InSendMessage sid data now save_fault) s =
      Normal (s', [OutEmit (ToAll, EvNewMessage m)]) /\
    memoryMessages s' = push_message m (memoryMessages s) /\
    last (memoryMessages s') = Some m /\
    receives s' ToAll sid = true /\
    (forall r, is_connected s r = true -> receives s' ToAll r = true) /\
    collection s' =
      (if isDbConnected s && negb save_fault then collection s ++ [m]
       else collection s) /\
    (exists evicted,
       memoryMessages s ++ [m] = evicted ++ memoryMessages s' /\
       length evicted = (length (memoryMessages s ++ [m]) - 100)%nat) /\
    ((length (memoryMessages s) < 100)%nat ->
     memoryMessages s' = memoryMessages s ++ [m]) /\
    (forall old, old ∈ memoryMessages s' -> old = m \/ old ∈ memoryMessages s).
Proof.
  intros [Hc Hu] Hd Hb m.
  pose proof (on_send_message_valid sid data body now save_fault s Hu Hd Hb) as E.
  fold m in E. eexists. split; [exact E|].
  split; [simpl; by rewrite Hc, E|].
  rewrite try_save_memoryMessages, try_save_collection. simpl.
  split; [done|]. split; [apply push_message_last|].
  assert (forall r, is_connected s r = true ->
            receives (try_save save_fault m
                        (set_memoryMessages (push_message m (memoryMessages s)) s))
              ToAll r = true) as Hall.
  { intros r Hr. unfold receives, is_connected.
    rewrite try_save_sockets. simpl. unfold is_connected in Hr.
    by rewrite Hr. }
  split; [by apply Hall|]. split; [exact Hall|]. split; [done|].
  split; [|split].
  - exists (take (length (memoryMessages s ++ [m]) - 100) (memoryMessages s ++ [m])).
    split; [rewrite push_message_slice; apply slice_last_split|].
    rewrite length_take. lia.
  - intros Hlen. rewrite push_message_slice. apply slice_last_all.
    rewrite length_app. simpl. lia.
  - intros old Hold. rewrite push_message_slice in Hold.
    apply (subseteq_drop _ _ old) in Hold.
    apply elem_of_app in Hold as [Hold|Hold]; [by right|].
    apply list_elem_of_singleton in Hold. by left.
Qed.

Lemma validated_send_is_buffered_and_broadcast_witness :
  let m0 := {| username := "bob"; message := "yo"; timestamp := 1 |} in
  let s := set_memoryMessages [m0]
             (connectDB true (joined "a" "alice" 1 (on_connection "a" initial))) in
  let m := {| username := "alice"; message := "hi"; timestamp := 2 |} in
  exists s',
    step (InSendMessage "a" (message_payload " hi ") 2 true) s =
      Normal (s', [OutEmit (ToAll, EvNewMessage m)]) /\
    memoryMessages s' = [m0; m] /\
    collection s' = [].
Proof.
  intros m0 s m.
  destruct (validated_send_is_buffered_and_broadcast
              "a" (message_payload " hi ") " hi " 2 true s)
    as (s' & _ & Hstep & _ & _ & _ & _ & Hdb & _ & Happend & _).
  - split; vm_compute; reflexivity.
  - reflexivity.
  - vm_compute. discriminate.
  - exists s'. split; [exact Hstep|]. split; [|exact Hdb].
    apply Happend. simpl. lia.
Defined.

(** ** Runs *)

Lemma run_cons_Normal i rest s s1 o1 s2 o2 :
  step i s = Normal (s1, o1) ->
  run rest s1 = Normal (s2, o2) ->
  run (i :: rest) s = Normal (s2, o1 ++ o2).
Proof. intros E1 E2. cbn [run]. rewrite E1. cbn. rewrite E2. done. Qed.

Lemma run_cons_inv i rest s s' out :
  run (i :: rest) s = Normal (s', out) ->
  exists s1 o1 o2,
    step i s = Normal (s1, o1) /\ run rest s1 = Normal (s', o2) /\ out = o1 ++ o2.
Proof.
  cbn [run]. destruct (step i s) as [[s1 o1]|e]; cbn; [|done].
  destruct (run rest s1) as [[s2 o2]|e] eqn:E2; cbn; [|done].
  intros [= <- <-]. by exists s1, o1, o2.
Qed.

Lemma run_app_inv pre post s s' out :
  run (pre ++ post) s = Normal (s', out) ->
  exists s1 o1 o2,
    run pre s = Normal (s1, o1) /\ run post s1 = Normal (s', o2) /\ out = o1 ++ o2.
Proof.
  revert s out. induction pre as [|i pre IH]; intros s out H.
  - exists s, [], out. simpl in H. done.
  - rewrite <- app_comm_cons in H. apply run_cons_inv in H as (s1 & o1 & o2 & E1 & E2 & ->).
    apply IH in E2 as (s2 & o3 & o4 & E3 & E4 & ->).
    exists s2, (o1 ++ o3), o4. split; [by apply (run_cons_Normal _ _ _ s1)|].
    split; [done|]. by rewrite app_assoc.
Qed.

(** ** Joining *)

Lemma step_join_accepts sid n t1 t2 s :
  is_connected s sid = true ->
  trim n <> "" ->
  step (InJoin sid (JStr n) t1 t2) s =
  Normal (joined sid (trim n) t1 s,
          [OutEmit (ToOthers sid, EvUserJoined (trim n) t2);
           OutEmit (ToAll,
                    EvUsersUpdate (JsMap.keys (activeUsers (joined sid (trim n) t1 s))))]).
Proof.
  intros Hc Hn. simpl. rewrite Hc.
  by rewrite (on_join_accepts sid n t1 t2 s Hn).
Qed.

Lemma is_connected_joined sid r name t s :
  is_connected (joined sid name t s) r = is_connected s r.
Proof. apply (is_connected_assign sid r name s). Qed.

Lemma username_of_joined sid r name t s :
  username_of (joined sid name t s) r =
  if decide (sid = r) then Some name else username_of s r.
Proof. apply (username_of_assign sid r name s). Qed.

Lemma step_disconnect_active sid now s :
  Active s sid ->
  step (InDisconnect sid now) s =
  Normal (set_activeUsers
            (JsMap.delete (name_or_empty (username_of s sid)) (activeUsers s))
            (close_socket sid s),
          [OutEmit (ToOthers sid, EvUserLeft (name_or_empty (username_of s sid)) now);
           OutEmit (ToAll,
                    EvUsersUpdate
                      (JsMap.keys
                         (JsMap.delete (name_or_empty (username_of s sid))
                            (activeUsers s))))]).
Proof.
  intros [Hc Hu]. simpl. rewrite Hc. unfold on_disconnect.
  rewrite username_of_close, Hu. simpl. by rewrite activeUsers_close.
Qed.

(** C1, as the code has it: the cap of 20 characters is enforced by the
    client alone. [joinChat] with a longer trimmed name shows an error,
    emits no [join] and leaves the client state as it was; the server's
    [join] handler accepts every string that is non-empty after trimming,
    whatever its length, and registers the whole trimmed name. *)
Theorem join_length_cap_is_client_side :
  (forall value c,
     (20 < String.length (trim value))%nat ->
     joinChat value c = (c, [ShowError "Username must be 20 characters or less"])) /\
  (forall sid n t1 t2 s,
     is_connected s sid = true ->
     trim n <> "" ->
     exists s',
       step (InJoin sid (JStr n) t1 t2) s =
         Normal (s', [OutEmit (ToOthers sid, EvUserJoined (trim n) t2);
                      OutEmit (ToAll, EvUsersUpdate (JsMap.keys (activeUsers s')))]) /\
       username_of s' sid = Some (trim n) /\
       JsMap.get (trim n) (activeUsers s') = Some {| id := sid; joinedAt := t1 |} /\
       trim n ∈ JsMap.keys (activeUsers s')).
Proof.
  split.
  - intros value c Hlen. unfold joinChat.
    rewrite (eqb_empty_false _ (trim_long_nonempty value Hlen)).
    by rewrite (proj2 (Nat.ltb_lt _ _) Hlen).
  - intros sid n t1 t2 s Hc Hn. exists (joined sid (trim n) t1 s).
    split; [by apply step_join_accepts|].
    split; [rewrite username_of_joined; by case_decide|].
    split; [apply JsMapFacts.get_set_eq | apply JsMapFacts.elem_of_keys_set].
Qed.

(** C1 as stated does not hold of the server: a [join] whose name has 21
    characters is accepted; no [error] is emitted, the socket gets the name
    and the registry lists it. *)
Lemma join_of_21_characters_is_accepted :
  let s := on_connection "a" initial in
  let n := "abcdefghijklmnopqrstu" in
  (20 < String.length (trim n))%nat /\
  exists s',
    step (InJoin "a" (JStr n) 1 2) s =
      Normal (s', [OutEmit (ToOthers "a", EvUserJoined n 2);
                   OutEmit (ToAll, EvUsersUpdate [n])]) /\
    username_of s' "a" = Some n /\
    JsMap.get n (activeUsers s') = Some {| id := "a"; joinedAt := 1 |}.
Proof.
  split; [vm_compute; lia|].
  eexists. split; [vm_compute; reflexivity|].
  split; vm_compute; reflexivity.
Qed.

Lemma join_length_cap_is_client_side_witness :
  joinChat "  abcdefghijklmnopqrstu  " {| currentUser := None; joinModalHidden := false |} =
    ({| currentUser := None; joinModalHidden := false |},
     [ShowError "Username must be 20 characters or less"]) /\
  exists s',
    step (InJoin "a" (JStr " abcdefghijklmnopqrstu ") 1 2) (on_connection "a" initial) =
      Normal (s', [OutEmit (ToOthers "a", EvUserJoined "abcdefghijklmnopqrstu" 2);
                   OutEmit (ToAll, EvUsersUpdate (JsMap.keys (activeUsers s')))]) /\
    username_of s' "a" = Some "abcdefghijklmnopqrstu".
Proof.
  destruct join_length_cap_is_client_side as [Hclient Hserver].
  split.
  - apply (Hclient "  abcdefghijklmnopqrstu  "). vm_compute. lia.
  - destruct (Hserver "a" " abcdefghijklmnopqrstu " 1 2 (on_connection "a" initial))
      as (s' & Hstep & Hname & _).
    + reflexivity.
    + vm_compute. discriminate.
    + exists s'. split; [exact Hstep | exact Hname].
Defined.

(** ** Malformed payloads *)

(** C2 fails on the code: on a joined connection, [send-message] with an
    [undefined], [null] or field-less payload and [typing] with an
    [undefined] or [null] payload throw a [TypeError] out of the handler;
    so does [join] with a truthy payload that is not a string. *)
Theorem malformed_payload_throws sid now save_fault t1 t2 s :
  Active s sid ->
  on_send_message sid JUndefined now save_fault s =
    Throw (TypeError "Cannot read properties of undefined (reading 'message')") /\
  on_send_message sid JNull now save_fault s =
    Throw (TypeError "Cannot read properties of null (reading 'message')") /\
  on_send_message sid (JObj []) now save_fault s =
    Throw (TypeError "Cannot read properties of undefined (reading 'trim')") /\
  on_typing sid JUndefined s =
    Throw (TypeError "Cannot read properties of undefined (reading 'isTyping')") /\
  on_typing sid JNull s =
    Throw (TypeError "Cannot read properties of null (reading 'isTyping')") /\
  on_join sid (JNum 5) t1 t2 s = Throw (TypeError "trim is not a function") /\
  completes (step (InSendMessage sid JNull now save_fault) s) = false /\
  completes (step (InTyping sid JNull) s) = false.
Proof.
  intros [Hc Hu].
  unfold on_send_message, on_typing. simpl. rewrite Hc, Hu. simpl.
  unfold on_send_message, on_typing. rewrite Hu. simpl. done.
Qed.

Lemma malformed_payload_throws_witness :
  let s := joined "a" "alice" 1 (on_connection "a" initial) in
  run [InConnection "a"; InJoin "a" (JStr "alice") 1 2] initial =
    Normal (s, [OutEmit (ToOthers "a", EvUserJoined "alice" 2);
                OutEmit (ToAll, EvUsersUpdate ["alice"])]) /\
  on_send_message "a" JNull 3 false s =
    Throw (TypeError "Cannot read properties of null (reading 'message')") /\
  completes (step (InTyping "a" JNull) s) = false.
Proof.
  intros s. split; [vm_compute; reflexivity|].
  assert (Active s "a") as Ha by (split; vm_compute; reflexivity).
  pose proof (malformed_payload_throws "a" 3 false 1 2 s Ha) as H.
  split; [apply H|]. apply H.
Defined.

(** ** Disconnecting *)

(** C9: when an Active connection disconnects, its name is deleted from
    [activeUsers] and exactly two events are emitted, in this order: one
    [user-left] to the others and one [users-update] to all; both reach
    every connection that remains open and neither reaches the closed one.
    When a connection that never joined disconnects, nothing is emitted and
    [activeUsers] is unchanged. *)
Theorem disconnect_updates_presence sid now s :
  (Active s sid ->
   JsMap.wf (activeUsers s) ->
   let n := name_or_empty (username_of s sid) in
   exists s' out,
     step (InDisconnect sid now) s = Normal (s', map OutEmit out) /\
     out = [(ToOthers sid, EvUserLeft n now);
            (ToAll, EvUsersUpdate (JsMap.keys (activeUsers s')))] /\
     count_event "user-left" out = 1%nat /\
     count_event "users-update" out = 1%nat /\
     activeUsers s' = JsMap.delete n (activeUsers s) /\
     (n ∉ JsMap.keys (activeUsers s')) /\
     JsMap.get n (activeUsers s') = None /\
     (forall r, r <> sid -> is_connected s r = true ->
        receives s' (ToOthers sid) r = true /\ receives s' ToAll r = true) /\
     receives s' (ToOthers sid) sid = false /\
     receives s' ToAll sid = false) /\
  (Unidentified s sid ->
   exists s',
     step (InDisconnect sid now) s = Normal (s', []) /\
     activeUsers s' = activeUsers s).
Proof.
  split.
  - intros Ha Hwf n.
    pose proof (step_disconnect_active sid now s Ha) as E. fold n in E.
    exists (set_activeUsers (JsMap.delete n (activeUsers s)) (close_socket sid s)),
      [(ToOthers sid, EvUserLeft n now);
       (ToAll, EvUsersUpdate (JsMap.keys (JsMap.delete n (activeUsers s))))].
    split; [exact E|]. simpl.
    split; [done|]. split; [done|]. split; [done|]. split; [done|].
    split; [by apply JsMapFacts.not_elem_of_keys_delete|].
    split; [by apply JsMapFacts.get_delete_eq|].
    assert (forall r, is_connected
              (set_activeUsers (JsMap.delete n (activeUsers s)) (close_socket sid s)) r
            = if decide (sid = r) then false else is_connected s r) as Hconn.
    { intros r. apply (is_connected_close sid r s). }
    unfold receives. split; [|rewrite Hconn; by case_decide].
    intros r Hne Hr. rewrite Hconn. case_decide; [by subst|].
    rewrite Hr. simpl. split; [|done].
    by rewrite (proj2 (String.eqb_neq sid r)).
  - intros [Hc Hu]. eexists. simpl. rewrite Hc. unfold on_disconnect.
    rewrite username_of_close, Hu. simpl. split; [done|].
    apply activeUsers_close.
Qed.

Lemma disconnect_updates_presence_witness :
  let s := joined "b" "bob" 3 (joined "a" "alice" 1
             (on_connection "b" (on_connection "a" initial))) in
  (exists s' out,
     step (InDisconnect "a" 9) s = Normal (s', map OutEmit out) /\
     out = [(ToOthers "a", EvUserLeft "alice" 9); (ToAll, EvUsersUpdate ["bob"])] /\
     receives s' ToAll "b" = true) /\
  (exists s',
     step (InDisconnect "c" 9) (on_connection "c" s) = Normal (s', []) /\
     JsMap.keys (activeUsers s') = ["alice"; "bob"]).
Proof.
  intros s. split.
  - destruct (proj1 (disconnect_updates_presence "a" 9 s))
      as (s' & out & Hstep & Hout & _ & _ & Hdel & _ & _ & Hrecv & _).
    + split; vm_compute; reflexivity.
    + apply (JsMapFacts.wf_set "bob"), (JsMapFacts.wf_set "alice"), NoDup_nil_2.
    + exists s', out. split; [exact Hstep|]. split.
      * rewrite Hout, Hdel. reflexivity.
      * apply (Hrecv "b"); [discriminate | vm_compute; reflexivity].
  - destruct (proj2 (disconnect_updates_presence "c" 9 (on_connection "c" s)))
      as (s' & Hstep & Hreg).
    + split; vm_compute; reflexivity.
    + exists s'. split; [exact Hstep|]. rewrite Hreg. reflexivity.
Defined.

(** ** Two connections under one name *)

(** C10: two open connections [a] and [b] join with names that trim to the
    same string. After the second join the registry entry of that name
    belongs to [b]. When [a] then disconnects, a [user-left] for the name
    goes out, to [b] among others, and the name is gone from the registry
    and from the active-user list, although [b] is still open and still
    carries the name. *)
Theorem duplicate_name_disconnect_removes_survivor a b n1 n2 t1 t2 t3 t4 t5 s :
  a <> b ->
  Unidentified s a ->
  Unidentified s b ->
  trim n1 <> "" ->
  trim n2 = trim n1 ->
  JsMap.wf (activeUsers s) ->
  let name := trim n1 in
  exists s2 out2 s3 out3,
    run [InJoin a (JStr n1) t1 t2; InJoin b (JStr n2) t3 t4] s = Normal (s2, out2) /\
    JsMap.get name (activeUsers s2) = Some {| id := b; joinedAt := t3 |} /\
    step (InDisconnect a t5) s2 = Normal (s3, out3) /\
    (OutEmit (ToOthers a, EvUserLeft name t5) ∈ out3) /\
    receives s3 (ToOthers a) b = true /\
    JsMap.get name (activeUsers s3) = None /\
    (name ∉ JsMap.keys (activeUsers s3)) /\
    (name ∉ map fst (api_users s3)) /\
    Active s3 b /\
    username_of s3 b = Some name.
Proof.
  intros Hab [Hca Hua] [Hcb Hub] Hn1 Hn2 Hwf name.
  set (s1 := joined a name t1 s).
  set (s2 := joined b name t3 s1).
  assert (step (InJoin a (JStr n1) t1 t2) s = Normal (s1, _)) as E1
    by (by apply step_join_accepts).
  assert (is_connected s1 b = true) as Hcb1
    by (unfold s1; by rewrite is_connected_joined).
  assert (step (InJoin b (JStr n2) t3 t4) s1 = Normal (joined b (trim n2) t3 s1, _))
    as E2 by (apply step_join_accepts; [done | by rewrite Hn2]).
  rewrite Hn2 in E2. fold name s2 in E2.
  assert (Active s2 a) as Ha2.
  { split.
    - unfold s2, s1. by rewrite !is_connected_joined.
    - unfold s2, s1. rewrite !username_of_joined.
      case_decide; [by subst|]. case_decide; [|done].
      simpl. apply negb_true_iff, eqb_empty_false, Hn1. }
  assert (name_or_empty (username_of s2 a) = name) as Hname.
  { unfold s2, s1. rewrite !username_of_joined.
    case_decide; [by subst|]. by case_decide. }
  assert (JsMap.wf (activeUsers s2)) as Hwf2.
  { unfold s2, s1, joined. simpl. by do 2 apply JsMapFacts.wf_set. }
  pose proof (step_disconnect_active a t5 s2 Ha2) as E3.
  rewrite Hname in E3.
  eexists s2, _, _, _.
  split.
  { eapply run_cons_Normal; [exact E1|].
    eapply run_cons_Normal; [exact E2 | reflexivity]. }
  split; [apply JsMapFacts.get_set_eq|].
  split; [exact E3|].
  split; [apply elem_of_cons; by left|].
  assert (is_connected
            (set_activeUsers (JsMap.delete name (activeUsers s2)) (close_socket a s2)) b
          = true) as Hb3.
  { change (is_connected (close_socket a s2) b = true).
    rewrite is_connected_close. case_decide; [done|].
    unfold s2. by rewrite is_connected_joined. }
  assert (username_of
            (set_activeUsers (JsMap.delete name (activeUsers s2)) (close_socket a s2)) b
          = Some name) as Hu3.
  { change (username_of (close_socket a s2) b = Some name).
    rewrite username_of_close. unfold s2. rewrite username_of_joined.
    by case_decide. }
  split.
  { unfold receives. rewrite Hb3. simpl.
    by rewrite (proj2 (String.eqb_neq a b)). }
  split; [by apply JsMapFacts.get_delete_eq|].
  assert (name ∉ JsMap.keys (JsMap.delete name (activeUsers s2))) as Hgone
    by (by apply JsMapFacts.not_elem_of_keys_delete).
  split; [exact Hgone|].
  split.
  { unfold api_users, JsMap.entries. simpl. rewrite map_map. simpl. exact Hgone. }
  split; [|exact Hu3].
  split; [exact Hb3|]. rewrite Hu3. simpl. apply negb_true_iff, eqb_empty_false, Hn1.
Qed.

Lemma duplicate_name_disconnect_removes_survivor_witness :
  exists s2 out2 s3 out3,
    run [InJoin "a" (JStr "sam") 1 2; InJoin "b" (JStr " sam ") 3 4]
      (on_connection "b" (on_connection "a" initial)) = Normal (s2, out2) /\
    step (InDisconnect "a" 5) s2 = Normal (s3, out3) /\
    (OutEmit (ToOthers "a", EvUserLeft "sam" 5) ∈ out3) /\
    ("sam" ∉ map fst (api_users s3)) /\
    username_of s3 "b" = Some "sam".
Proof.
  destruct (duplicate_name_disconnect_removes_survivor
              "a" "b" "sam" " sam " 1 2 3 4 5
              (on_connection "b" (on_connection "a" initial)))
    as (s2 & out2 & s3 & out3 & Hrun & _ & Hstep & Hleft & _ & _ & _ & Hlist & _ & Hname).
  - discriminate.
  - split; vm_compute; reflexivity.
  - split; vm_compute; reflexivity.
  - vm_compute. discriminate.
  - vm_compute. reflexivity.
  - vm_compute. constructor.
  - exists s2, out2, s3, out3.
    split; [exact Hrun|]. split; [exact Hstep|]. split; [exact Hleft|].
    split; [exact Hlist | exact Hname].
Defined.

(** ** What a step may change *)

Lemma on_join_frame sid payload t1 t2 s s' out :
  on_join sid payload t1 t2 s = Normal (s', out) ->
  isDbConnected s' = isDbConnected s /\
  memoryMessages s' = memoryMessages s /\
  collection s' = collection s.
Proof.
  unfold on_join. destruct (truthy payload); simpl; [|by intros [= <- <-]].
  destruct (call_trim payload) as [n|e]; simpl; [|done].
  destruct (String.eqb n ""); by intros [= <- <-].
Qed.

Lemma on_typing_frame sid data s s' out :
  on_typing sid data s = Normal (s', out) -> s' = s.
Proof.
  unfold on_typing. destruct (truthy_name (username_of s sid)); simpl.
  - destruct (get_prop data "isTyping"); simpl; [|done]. by intros [= <- <-].
  - by intros [= <- <-].
Qed.

Lemma on_disconnect_frame sid now s s' out :
  on_disconnect sid now s = Normal (s', out) ->
  isDbConnected s' = isDbConnected s /\
  memoryMessages s' = memoryMessages s /\
  collection s' = collection s.
Proof.
  unfold on_disconnect.
  destruct (truthy_name (username_of s sid)); by intros [= <- <-].
Qed.

(** A [send-message] that completes either leaves the buffer alone or
    pushes one message stamped with the time it read. *)
Lemma on_send_message_frame sid data now fault s s' out :
  on_send_message sid data now fault s = Normal (s', out) ->
  isDbConnected s' = isDbConnected s /\
  (memoryMessages s' = memoryMessages s \/
   exists m, timestamp m = now /\
             memoryMessages s' = push_message m (memoryMessages s)).
Proof.
  unfold on_send_message.
  destruct (truthy_name (username_of s sid)); simpl;
    [|intros [= <- <-]; by split; [|left]].
  destruct (get_prop data "message") as [field|e]; simpl; [|done].
  destruct (call_trim field) as [body|e]; simpl; [|done].
  destruct (String.eqb body ""); intros [= <- <-]; [by split; [|left]|].
  rewrite try_save_isDbConnected, try_save_memoryMessages. simpl.
  split; [done|]. right. eexists. split; [|reflexivity]. reflexivity.
Qed.

Lemma emitted_inv (h : Handled) s' out :
  emitted h = Normal (s', out) ->
  exists em, h = Normal (s', em) /\ out = map OutEmit em.
Proof.
  unfold emitted. destruct h as [[s1 em]|e]; simpl; [|done].
  intros [= <- <-]. by exists em.
Qed.

Lemma close_socket_frame sid s :
  isDbConnected (close_socket sid s) = isDbConnected s /\
  memoryMessages (close_socket sid s) = memoryMessages s /\
  collection (close_socket sid s) = collection s.
Proof. unfold close_socket. by destruct (sockets s !! sid). Qed.

Lemma on_connection_frame sid s :
  isDbConnected (on_connection sid s) = isDbConnected s /\
  memoryMessages (on_connection sid s) = memoryMessages s /\
  collection (on_connection sid s) = collection s.
Proof. unfold on_connection. by destruct (sockets s !! sid). Qed.

Lemma step_isDbConnected i s s' out :
  is_request i = true ->
  step i s = Normal (s', out) ->
  isDbConnected s' = isDbConnected s.
Proof.
  intros Hreq. destruct i as [ok|sid|sid p t1 t2|sid d now f|sid d|sid now|f|];
    simpl in *; try done.
  - intros [= <- <-]. apply on_connection_frame.
  - destruct (is_connected s sid); [|by intros [= <- <-]].
    intros H. apply emitted_inv in H as (em & H & _).
    by apply on_join_frame in H as (? & _).
  - destruct (is_connected s sid); [|by intros [= <- <-]].
    intros H. apply emitted_inv in H as (em & H & _).
    by apply on_send_message_frame in H as (? & _).
  - destruct (is_connected s sid); [|by intros [= <- <-]].
    intros H. apply emitted_inv in H as (em & H & _).
    by apply on_typing_frame in H as ->.
  - destruct (is_connected s sid); [|by intros [= <- <-]].
    intros H. apply emitted_inv in H as (em & H & _).
    apply on_disconnect_frame in H as (-> & _). apply close_socket_frame.
  - by intros [= <- <-].
  - by intros [= <- <-].
Qed.

Lemma step_memoryMessages i s s' out :
  step i s = Normal (s', out) ->
  memoryMessages s' = memoryMessages s \/
  exists sid data now fault m,
    i = InSendMessage sid data now fault /\
    timestamp m = now /\
    memoryMessages s' = push_message m (memoryMessages s).
Proof.
  destruct i as [ok|sid|sid p t1 t2|sid d now f|sid d|sid now|f|]; simpl.
  - intros [= <- <-]. left. unfold connectDB. by destruct ok.
  - intros [= <- <-]. left. apply on_connection_frame.
  - destruct (is_connected s sid); [|intros [= <- <-]; by left].
    intros H. apply emitted_inv in H as (em & H & _).
    left. by apply on_join_frame in H as (_ & ? & _).
  - destruct (is_connected s sid); [|intros [= <- <-]; by left].
    intros H. apply emitted_inv in H as (em & H & _).
    apply on_send_message_frame in H as (_ & [H|(m & Ht & H)]); [by left|].
    right. by exists sid, d, now, f, m.
  - destruct (is_connected s sid); [|intros [= <- <-]; by left].
    intros H. apply emitted_inv in H as (em & H & _).
    left. by apply on_typing_frame in H as ->.
  - destruct (is_connected s sid); [|intros [= <- <-]; by left].
    intros H. apply emitted_inv in H as (em & H & _).
    left. apply on_disconnect_frame in H as (_ & -> & _). apply close_socket_frame.
  - intros [= <- <-]. by left.
  - intros [= <- <-]. by left.
Qed.

(** ** The registry keeps one entry per name *)

Lemma on_join_wf sid payload t1 t2 s s' out :
  on_join sid payload t1 t2 s = Normal (s', out) ->
  JsMap.wf (activeUsers s) -> JsMap.wf (activeUsers s').
Proof.
  unfold on_join. destruct (truthy payload); simpl; [|by intros [= <- <-]].
  destruct (call_trim payload) as [n|e]; simpl; [|done].
  destruct (String.eqb n ""); intros [= <- <-]; [done|].
  simpl. apply JsMapFacts.wf_set.
Qed.

Lemma on_send_message_activeUsers sid data now fault s s' out :
  on_send_message sid data now fault s = Normal (s', out) ->
  activeUsers s' = activeUsers s.
Proof.
  unfold on_send_message.
  destruct (truthy_name (username_of s sid)); simpl; [|by intros [= <- <-]].
  destruct (get_prop data "message") as [field|e]; simpl; [|done].
  destruct (call_trim field) as [body|e]; simpl; [|done].
  destruct (String.eqb body ""); intros [= <- <-]; [done|].
  by rewrite try_save_activeUsers.
Qed.

Lemma on_disconnect_wf sid now s s' out :
  on_disconnect sid now s = Normal (s', out) ->
  JsMap.wf (activeUsers s) -> JsMap.wf (activeUsers s').
Proof.
  unfold on_disconnect.
  destruct (truthy_name (username_of s sid)); intros [= <- <-]; [|done].
  simpl. apply JsMapFacts.wf_delete.
Qed.

Lemma step_activeUsers_wf i s s' out :
  step i s = Normal (s', out) ->
  JsMap.wf (activeUsers s) -> JsMap.wf (activeUsers s').
Proof.
  destruct i as [ok|sid|sid p t1 t2|sid d now f|sid d|sid now|f|]; simpl.
  - intros [= <- <-]. unfold connectDB. by destruct ok.
  - intros [= <- <-]. unfold on_connection. by destruct (sockets s !! sid).
  - destruct (is_connected s sid); [|by intros [= <- <-]].
    intros H. apply emitted_inv in H as (em & H & _).
    apply (on_join_wf _ _ _ _ _ _ _ H).
  - destruct (is_connected s sid); [|by intros [= <- <-]].
    intros H. apply emitted_inv in H as (em & H & _).
    by apply on_send_message_activeUsers in H as ->.
  - destruct (is_connected s sid); [|by intros [= <- <-]].
    intros H. apply emitted_inv in H as (em & H & _).
    by apply on_typing_frame in H as ->.
  - destruct (is_connected s sid); [|by intros [= <- <-]].
    intros H. apply emitted_inv in H as (em & H & _).
    intros Hwf. apply (on_disconnect_wf _ _ _ _ _ H).
    rewrite activeUsers_close. exact Hwf.
  - by intros [= <- <-].
  - by intros [= <- <-].
Qed.

(** Every state the process reaches has a registry without repeated
    names. *)
Lemma run_activeUsers_wf docs inputs s out :
  run inputs (boot docs) = Normal (s, out) -> JsMap.wf (activeUsers s).
Proof.
  assert (forall s0, JsMap.wf (activeUsers s0) ->
            run inputs s0 = Normal (s, out) -> JsMap.wf (activeUsers s)) as H.
  { revert out. induction inputs as [|i rest IH]; intros out s0 Hwf Hrun.
    - by injection Hrun as <- <-.
    - apply run_cons_inv in Hrun as (s1 & o1 & o2 & E1 & E2 & ->).
      apply (IH o2 s1); [|done]. by apply (step_activeUsers_wf i s0 s1 o1). }
  apply H. apply NoDup_nil_2.
Qed.

(** ** Availability of the store *)

Lemma api_messages_database fault s :
  source (api_messages fault s) = "database" <->
  isDbConnected s = true /\ fault = false.
Proof.
  unfold api_messages, db_find_recent.
  destruct (isDbConnected s), fault; simpl; split; try done; by intros [? ?].
Qed.

Lemma step_source i s s' out r :
  isDbConnected s = false ->
  step i s = Normal (s', out) ->
  OutMessages r ∈ out ->
  source r <> "database".
Proof.
  intros Hdb Hstep Hr Hsrc.
  destruct i as [ok|sid|sid p t1 t2|sid d now f|sid d|sid now|f|]; simpl in Hstep.
  1, 2: injection Hstep as <- <-; by apply elem_of_nil in Hr.
  6: injection Hstep as <- <-; apply list_elem_of_singleton in Hr; discriminate.
  1, 2, 3, 4:
    destruct (is_connected s sid);
      [apply emitted_inv in Hstep as (em & _ & ->);
       apply list_elem_of_fmap in Hr as (e & He & _); discriminate
      |injection Hstep as <- <-; by apply elem_of_nil in Hr].
  injection Hstep as <- <-.
  apply list_elem_of_singleton in Hr. injection Hr as ->.
  apply api_messages_database in Hsrc as [Hsrc _]. congruence.
Qed.

Lemma run_requests_stay_disconnected inputs s s' out :
  forallb is_request inputs = true ->
  isDbConnected s = false ->
  run inputs s = Normal (s', out) ->
  isDbConnected s' = false /\
  forall r, OutMessages r ∈ out -> source r <> "database".
Proof.
  revert s out. induction inputs as [|i rest IH]; intros s out Hreq Hdb Hrun.
  - injection Hrun as <- <-. split; [done|]. intros r Hr.
    by apply elem_of_nil in Hr.
  - simpl in Hreq. apply andb_true_iff in Hreq as [Hi Hrest].
    apply run_cons_inv in Hrun as (s1 & o1 & o2 & E1 & E2 & ->).
    assert (isDbConnected s1 = false) as Hdb1
      by (rewrite <- Hdb; by apply (step_isDbConnected i s s1 o1)).
    destruct (IH s1 o2 Hrest Hdb1 E2) as [Hfin Hout].
    split; [done|]. intros r Hr. apply elem_of_app in Hr as [Hr|Hr].
    + by apply (step_source i s s1 o1 r).
    + by apply Hout.
Qed.

(** C5: [connectDB] runs once. If its connection attempt fails, then
    whatever requests were served before it finished and whatever requests
    follow, [isDbConnected] is false at the end and no [/api/messages]
    response of the run has source [database]. No handler and no route
    writes [isDbConnected], whether its storage call resolves or rejects. *)
Theorem failed_connect_never_reports_database docs pre post s out :
  forallb is_request pre = true ->
  forallb is_request post = true ->
  run (pre ++ InConnectDB false :: post) (boot docs) = Normal (s, out) ->
  isDbConnected s = false /\
  (forall r, OutMessages r ∈ out -> source r <> "database") /\
  (forall i s0 s1 o,
     is_request i = true -> step i s0 = Normal (s1, o) ->
     isDbConnected s1 = isDbConnected s0).
Proof.
  intros Hpre Hpost Hrun.
  apply run_app_inv in Hrun as (s1 & o1 & o2 & E1 & E2 & ->).
  apply run_cons_inv in E2 as (s2 & o3 & o4 & E3 & E4 & ->).
  simpl in E3. injection E3 as <- <-.
  destruct (run_requests_stay_disconnected pre (boot docs) s1 o1 Hpre eq_refl E1)
    as [_ Hout1].
  destruct (run_requests_stay_disconnected post (connectDB false s1) s o4
              Hpost eq_refl E4) as [Hfin Hout2].
  split; [done|]. split; [|apply step_isDbConnected].
  intros r Hr. apply elem_of_app in Hr as [Hr|Hr]; [by apply Hout1|].
  apply elem_of_app in Hr as [Hr|Hr]; [by apply elem_of_nil in Hr | by apply Hout2].
Qed.

Lemma failed_connect_never_reports_database_witness :
  exists s out,
    run ([InConnection "a"; InGetMessages false] ++
         InConnectDB false ::
         [InJoin "a" (JStr "alice") 1 2;
          InSendMessage "a" (message_payload "hi") 3 true;
          InGetMessages true; InGetMessages false])
      (boot []) = Normal (s, out) /\
    isDbConnected s = false /\
    forall r, OutMessages r ∈ out -> source r <> "database".
Proof.
  eexists _, _. split; [vm_compute; reflexivity|].
  refine (let H := failed_connect_never_reports_database []
                     [InConnection "a"; InGetMessages false]
                     [InJoin "a" (JStr "alice") 1 2;
                      InSendMessage "a" (message_payload "hi") 3 true;
                      InGetMessages true; InGetMessages false] _ _
                     eq_refl eq_refl _ in conj (proj1 H) (proj1 (proj2 H))).
  vm_compute. reflexivity.
Defined.

(** ** The bounded buffer *)

Lemma step_buffer_bound i s s' out :
  step i s = Normal (s', out) ->
  (length (memoryMessages s) <= 100)%nat ->
  (length (memoryMessages s') <= 100)%nat.
Proof.
  intros H Hlen.
  apply step_memoryMessages in H as [->|(? & ? & ? & ? & m & _ & _ & ->)];
    [done | apply push_message_length].
Qed.

Lemma run_buffer_bound inputs s s' out :
  run inputs s = Normal (s', out) ->
  (length (memoryMessages s) <= 100)%nat ->
  (length (memoryMessages s') <= 100)%nat.
Proof.
  revert s out. induction inputs as [|i rest IH]; intros s out Hrun Hlen.
  - by injection Hrun as <- <-.
  - apply run_cons_inv in Hrun as (s1 & o1 & o2 & E1 & E2 & ->).
    apply (IH s1 o2 E2). by apply (step_buffer_bound i s s1 o1).
Qed.

(** What [push_message] evicts is a prefix of the buffer: its oldest
    entries. *)
Lemma push_message_evicts_oldest (m : MessageData) (buf : list MessageData) :
  buf ++ [m] =
  take (length (buf ++ [m]) - 100) (buf ++ [m]) ++ push_message m buf.
Proof. rewrite push_message_slice. apply slice_last_split. Qed.

Lemma push_all_bounded ms buf :
  (length buf <= 100)%nat -> push_all ms buf = slice_last 100 (buf ++ ms).
Proof.
  unfold push_all. revert buf. induction ms as [|m r IH]; intros buf Hlen; simpl.
  - rewrite app_nil_r. by rewrite slice_last_all.
  - rewrite IH by apply push_message_length.
    rewrite push_message_slice, slice_last_app_slice.
    by rewrite <- app_assoc.
Qed.

Lemma push_all_nonempty ms buf :
  ms <> [] -> push_all ms buf = slice_last 100 (buf ++ ms).
Proof.
  destruct ms as [|m r]; [done|]. intros _.
  change (push_all (m :: r) buf) with (push_all r (push_message m buf)).
  rewrite push_all_bounded by apply push_message_length.
  rewrite push_message_slice, slice_last_app_slice.
  by rewrite <- app_assoc.
Qed.

Lemma run_sends sid name sends s :
  is_connected s sid = true ->
  username_of s sid = Some name ->
  name <> "" ->
  Forall (fun x => trim (send_body x) <> "") sends ->
  exists s',
    run (map (send_input sid) sends) s =
      Normal (s', map (fun x => OutEmit (ToAll, EvNewMessage (sent_message name x)))
                    sends) /\
    memoryMessages s' = push_all (map (sent_message name) sends) (memoryMessages s).
Proof.
  intros Hc Hu Hname Hall. revert s Hc Hu.
  induction Hall as [|x rest Hx Hrest IH]; intros s Hc Hu.
  - by exists s.
  - assert (truthy_name (username_of s sid) = true) as Ht
      by (rewrite Hu; simpl; by rewrite (eqb_empty_false _ Hname)).
    pose proof (on_send_message_valid sid (message_payload (send_body x))
                  (send_body x) (send_now x) (send_save_fault x) s Ht eq_refl Hx) as E.
    simpl in E. rewrite Hu in E. simpl in E.
    fold (sent_message name x) in E.
    set (s1 := try_save (send_save_fault x) (sent_message name x)
                 (set_memoryMessages
                    (push_message (sent_message name x) (memoryMessages s)) s)) in *.
    assert (sockets s1 = sockets s) as Hs1
      by (unfold s1; by rewrite try_save_sockets).
    destruct (IH s1) as (s' & Hrun & Hbuf).
    + unfold is_connected in *. by rewrite Hs1.
    + unfold username_of in *. by rewrite Hs1.
    + exists s'. split.
      * apply (run_cons_Normal _ _ _ s1
                 [OutEmit (ToAll, EvNewMessage (sent_message name x))]);
          [|exact Hrun].
        unfold send_input. cbn [step]. rewrite Hc, E. reflexivity.
      * rewrite Hbuf. unfold s1. by rewrite try_save_memoryMessages.
Qed.

(** C3: in every state the process reaches, and so after every completed
    send, the buffer holds at most 100 messages; a send that pushes a
    message drops only a prefix of the buffer, its oldest entries, and keeps
    the rest in order with the new message last; after 150 validated sends
    in a row the last 50 entries of the buffer are the messages of sends
    101 to 150, in the order sent. *)
Theorem buffer_is_bounded_and_fifo :
  (forall docs inputs s out,
     run inputs (boot docs) = Normal (s, out) ->
     (length (memoryMessages s) <= 100)%nat) /\
  (forall sid data now fault s s' out,
     on_send_message sid data now fault s = Normal (s', out) ->
     memoryMessages s' = memoryMessages s \/
     exists m evicted,
       memoryMessages s ++ [m] = evicted ++ memoryMessages s' /\
       length evicted = (length (memoryMessages s ++ [m]) - 100)%nat /\
       last (memoryMessages s') = Some m /\
       (length (memoryMessages s') <= 100)%nat) /\
  (forall sid name sends s,
     is_connected s sid = true ->
     username_of s sid = Some name ->
     name <> "" ->
     Forall (fun x => trim (send_body x) <> "") sends ->
     length sends = 150%nat ->
     exists s' out,
       run (map (send_input sid) sends) s = Normal (s', out) /\
       length (memoryMessages s') = 100%nat /\
       slice_last 50 (memoryMessages s') = drop 100 (map (sent_message name) sends)).
Proof.
  split; [|split].
  - intros docs inputs s out Hrun.
    apply (run_buffer_bound inputs (boot docs) s out Hrun). simpl. lia.
  - intros sid data now fault s s' out H.
    apply on_send_message_frame in H as (_ & [H|(m & _ & H)]); [by left|].
    right. exists m, (take (length (memoryMessages s ++ [m]) - 100)
                        (memoryMessages s ++ [m])).
    rewrite H. split; [apply push_message_evicts_oldest|].
    split; [rewrite length_take; lia|].
    split; [apply push_message_last | apply push_message_length].
  - intros sid name sends s Hc Hu Hname Hall Hlen.
    destruct (run_sends sid name sends s Hc Hu Hname Hall) as (s' & Hrun & Hbuf).
    eexists s', _. split; [exact Hrun|].
    assert (length (map (sent_message name) sends) = 150%nat) as Hlen'
      by (by rewrite length_map).
    rewrite Hbuf, push_all_nonempty
      by (intros E; rewrite E in Hlen'; discriminate).
    split.
    + unfold slice_last. rewrite length_drop, length_app. lia.
    + rewrite slice_last_slice by lia.
      rewrite slice_last_app_ge by lia.
      unfold slice_last. by rewrite Hlen'.
Qed.

Lemma buffer_is_bounded_and_fifo_witness :
  let s := joined "a" "alice" 0 (on_connection "a" initial) in
  (exists s' out,
     run (map (send_input "a") (numbered_sends 150)) s = Normal (s', out) /\
     map timestamp (slice_last 50 (memoryMessages s')) = map Z.of_nat (seq 101 50)) /\
  (exists s' out,
     run (InConnection "a" :: InJoin "a" (JStr "alice") 0 0 ::
          map (send_input "a") (numbered_sends 120)) (boot []) = Normal (s', out) /\
     (length (memoryMessages s') <= 100)%nat).
Proof.
  intros s. destruct buffer_is_bounded_and_fifo as (Hbound & _ & Hlast).
  split.
  - destruct (Hlast "a" "alice" (numbered_sends 150) s) as (s' & out & Hrun & _ & Hm).
    + vm_compute. reflexivity.
    + vm_compute. reflexivity.
    + discriminate.
    + apply Forall_fmap, Forall_true. intros k. vm_compute. discriminate.
    + vm_compute. reflexivity.
    + exists s', out. split; [exact Hrun|]. rewrite Hm. vm_compute. reflexivity.
  - assert (exists s' out,
              run (InConnection "a" :: InJoin "a" (JStr "alice") 0 0 ::
                   map (send_input "a") (numbered_sends 120)) (boot [])
              = Normal (s', out)) as (s' & out & Hrun)
      by (eexists _, _; vm_compute; reflexivity).
    exists s', out. split; [exact Hrun|].
    apply (Hbound [] _ s' out Hrun).
Defined.

(** ** The recent-messages query *)

#[local] Instance newer_first_total : Total newer_first.
Proof. intros m1 m2. unfold newer_first. lia. Qed.

#[local] Instance newer_first_trans : Transitive newer_first.
Proof. intros m1 m2 m3. unfold newer_first. lia. Qed.

#[local] Instance older_first_trans : Transitive older_first.
Proof. intros m1 m2 m3. unfold older_first. lia. Qed.

Section SortedParts.
Context {A : Type} (R : relation A).



End SortedParts.






(** * Further properties of the server and of the client *)

(** ** [trim] *)

Lemma trimEnd_idem (x : string) : trimEnd (trimEnd x) = trimEnd x.
Proof.
  induction x as [|a r IH]; [done|]. simpl.
  destruct (trimEnd r) as [|b r'] eqn:E.
  - destruct (is_js_space a) eqn:Ha; [done|]. simpl. by rewrite Ha.
  - simpl. simpl in IH. by rewrite IH.
Qed.

Lemma trimStart_head (x : string) :
  match trimStart x with
  | EmptyString => True
  | String a _ => is_js_space a = false
  end.
Proof.
  induction x as [|a r IH]; [done|]. simpl.
  destruct (is_js_space a) eqn:Ha; [done|]. simpl. done.
Qed.

Lemma trimStart_trimEnd (x : string) :
  match x with
  | EmptyString => True
  | String a _ => is_js_space a = false
  end ->
  trimStart (trimEnd x) = trimEnd x.
Proof.
  destruct x as [|a r]; [done|]. intros Ha. simpl.
  destruct (trimEnd r) as [|b r']; rewrite ?Ha; simpl; by rewrite Ha.
Qed.

Lemma trim_idem (x : string) : trim (trim x) = trim x.
Proof.
  unfold trim.
  rewrite (trimStart_trimEnd (trimStart x) (trimStart_head x)).
  apply trimEnd_idem.
Qed.

Lemma trimmed_trim (x : string) : trimmed (trim x).
Proof. apply trim_idem. Qed.

(** ** The handlers, inverted *)

Lemma call_trim_Normal v n : call_trim v = Normal n -> exists x, v = JStr x /\ n = trim x.
Proof. destruct v; simpl; try done. intros [= <-]. by eexists. Qed.

Lemma on_join_inv sid payload t1 t2 s s' out :
  on_join sid payload t1 t2 s = Normal (s', out) ->
  (s' = s /\ out = [(ToSocket sid, EvError "Username is required")]) \/
  (exists x,
     payload = JStr x /\ trim x <> "" /\
     s' = joined sid (trim x) t1 s /\
     out = [(ToOthers sid, EvUserJoined (trim x) t2);
            (ToAll, EvUsersUpdate (JsMap.keys (activeUsers s')))]).
Proof.
  unfold on_join. destruct (truthy payload); simpl; [|intros [= <- <-]; by left].
  destruct (call_trim payload) as [n|e] eqn:E; simpl; [|done].
  apply call_trim_Normal in E as (x & -> & ->).
  destruct (String.eqb_spec (trim x) "") as [Hx|Hx]; intros [= <- <-]; [by left|].
  right. by exists x.
Qed.

Lemma on_send_message_inv sid data now fault s s' out :
  on_send_message sid data now fault s = Normal (s', out) ->
  (truthy_name (username_of s sid) = false /\ s' = s /\
   out = [(ToSocket sid, EvError "You must join first")]) \/
  (s' = s /\ out = []) \/
  (exists n body,
     username_of s sid = Some n /\ n <> "" /\
     get_prop data "message" = Normal (JStr body) /\ trim body <> "" /\
     let m := {| username := n; message := trim body; timestamp := now |} in
     s' = try_save fault m (set_memoryMessages (push_message m (memoryMessages s)) s) /\
     out = [(ToAll, EvNewMessage m)]).
Proof.
  unfold on_send_message.
  destruct (truthy_name (username_of s sid)) eqn:Hu; simpl;
    [|intros [= <- <-]; by left].
  apply truthy_name_Some in Hu as (n & Hn & Hne). rewrite Hn. simpl.
  destruct (get_prop data "message") as [field|e] eqn:Hf; simpl; [|done].
  destruct (call_trim field) as [b|e] eqn:E; simpl; [|done].
  apply call_trim_Normal in E as (body & -> & ->).
  destruct (String.eqb_spec (trim body) "") as [Hb|Hb]; intros [= <- <-];
    [right; by left|].
  right; right. by exists n, body.
Qed.

Lemma on_typing_inv sid data s s' out :
  on_typing sid data s = Normal (s', out) ->
  s' = s /\
  (out = [] \/
   exists n flag,
     username_of s sid = Some n /\ get_prop data "isTyping" = Normal flag /\
     out = [(ToOthers sid, EvUserTyping n flag)]).
Proof.
  unfold on_typing. destruct (truthy_name (username_of s sid)) eqn:Hu; simpl;
    [|intros [= <- <-]; split; [done | by left]].
  apply truthy_name_Some in Hu as (n & Hn & Hne). rewrite Hn. simpl.
  destruct (get_prop data "isTyping") as [flag|e]; simpl; [|done].
  intros [= <- <-]. split; [done|]. right. by exists n, flag.
Qed.

Lemma on_disconnect_inv sid now s s' out :
  on_disconnect sid now s = Normal (s', out) ->
  (s' = s /\ out = []) \/
  (exists n,
     username_of s sid = Some n /\ n <> "" /\
     s' = set_activeUsers (JsMap.delete n (activeUsers s)) s /\
     out = [(ToOthers sid, EvUserLeft n now);
            (ToAll, EvUsersUpdate (JsMap.keys (activeUsers s')))]).
Proof.
  unfold on_disconnect. destruct (truthy_name (username_of s sid)) eqn:Hu;
    [|intros [= <- <-]; by left].
  apply truthy_name_Some in Hu as (n & Hn & Hne). rewrite Hn. simpl.
  intros [= <- <-]. right. by exists n.
Qed.

(** The emissions of a step, with the socket they come from. *)
Lemma step_emissions i s s' out :
  step i s = Normal (s', out) ->
  out = map OutEmit (emissions out) \/
  (emissions out = [] /\ (i = InGetUsers \/ exists f, i = InGetMessages f)).
Proof.
  destruct i as [ok|sid|sid p t1 t2|sid d now f|sid d|sid now|f|]; simpl.
  1, 2: intros [= <- <-]; by left.
  1, 2, 3, 4:
    destruct (is_connected s sid); [|intros [= <- <-]; by left];
    intros H; apply emitted_inv in H as (em & _ & ->); left;
    induction em as [|e em IH]; [done | simpl; by rewrite <- IH].
  - intros [= <- <-]. right. split; [done|]. right. by exists f.
  - intros [= <- <-]. right. split; [done | by left].
Qed.

Lemma emissions_map em : emissions (map OutEmit em) = em.
Proof. induction em as [|e em IH]; [done | simpl; by rewrite IH]. Qed.

(** ** More on the registry map *)


Lemma JsMap_keys_set_inv {V : Type} k k' (v : V) m :
  k' ∈ JsMap.keys (JsMap.set k v m) -> k' = k \/ k' ∈ JsMap.keys m.
Proof.
  destruct (decide (k ∈ JsMap.keys m)) as [H|H].
  - rewrite JsMapFacts.keys_set_present by done. by right.
  - rewrite JsMapFacts.keys_set_absent by done. intros Hk.
    apply elem_of_app in Hk as [Hk|Hk]; [by right|].
    apply list_elem_of_singleton in Hk. by left.
Qed.



Lemma JsMap_wf_keys_set {V : Type} k (v : V) m :
  JsMap.wf m -> NoDup (JsMap.keys (JsMap.set k v m)).
Proof. apply JsMapFacts.wf_set. Qed.

(** ** Joining without a name *)

(** X1: a [join] whose payload is falsy ([undefined], [null], [false], [0],
    the empty string) or a string of white space only is answered with one
    [error] event, sent to the caller alone, and changes nothing on the
    server. *)
Theorem join_without_name_is_rejected sid payload t1 t2 s :
  is_connected s sid = true ->
  truthy payload = false \/ (exists x, payload = JStr x /\ trim x = "") ->
  step (InJoin sid payload t1 t2) s =
    Normal (s, [OutEmit (ToSocket sid, EvError "Username is required")]) /\
  (forall r, receives s (ToSocket sid) r = true -> r = sid).
Proof.
  intros Hc Hp. split.
  - simpl. rewrite Hc. unfold on_join.
    destruct Hp as [Hp|(x & -> & Hx)].
    + by rewrite Hp.
    + destruct (truthy (JStr x)); simpl; [|done]. by rewrite Hx.
  - intros r H. unfold receives in H. apply andb_true_iff in H as [_ H].
    symmetry. by apply String.eqb_eq.
Qed.

Lemma join_without_name_is_rejected_witness :
  let s := on_connection "a" initial in
  step (InJoin "a" (JStr "   ") 1 2) s =
    Normal (s, [OutEmit (ToSocket "a", EvError "Username is required")]) /\
  step (InJoin "a" JNull 1 2) s =
    Normal (s, [OutEmit (ToSocket "a", EvError "Username is required")]).
Proof.
  intros s. split.
  - apply (join_without_name_is_rejected "a" (JStr "   ") 1 2 s eq_refl).
    right. by exists "   ".
  - apply (join_without_name_is_rejected "a" JNull 1 2 s eq_refl). by left.
Defined.

(** ** The roster after a join *)

(** X2: an accepted [join] emits [user-joined] and then [users-update]; the
    roster of the [users-update] has no repeated name and contains the
    joiner's name, so it lists the joiner exactly once. The joiner does not
    receive its own [user-joined]; every other open connection does, and
    every open connection, the joiner included, receives the roster. *)
Theorem join_lists_the_joiner_once sid x t1 t2 s :
  is_connected s sid = true ->
  trim x <> "" ->
  JsMap.wf (activeUsers s) ->
  exists s' roster,
    step (InJoin sid (JStr x) t1 t2) s =
      Normal (s', [OutEmit (ToOthers sid, EvUserJoined (trim x) t2);
                   OutEmit (ToAll, EvUsersUpdate roster)]) /\
    NoDup roster /\
    (trim x ∈ roster) /\
    receives s' (ToOthers sid) sid = false /\
    receives s' ToAll sid = true /\
    (forall r, r <> sid -> is_connected s r = true ->
       receives s' (ToOthers sid) r = true /\ receives s' ToAll r = true).
Proof.
  intros Hc Hx Hwf.
  exists (joined sid (trim x) t1 s), (JsMap.keys (activeUsers (joined sid (trim x) t1 s))).
  split; [by apply step_join_accepts|].
  split; [by apply JsMap_wf_keys_set|].
  split; [apply JsMapFacts.elem_of_keys_set|].
  unfold receives. rewrite !is_connected_joined, Hc, String.eqb_refl.
  split; [done|]. split; [done|].
  intros r Hne Hr. rewrite is_connected_joined, Hr. simpl. split; [|done].
  by rewrite (proj2 (String.eqb_neq sid r)).
Qed.

Lemma join_lists_the_joiner_once_witness :
  let s := joined "a" "alice" 1 (on_connection "b" (on_connection "a" initial)) in
  exists s',
    step (InJoin "b" (JStr " bob ") 3 4) s =
      Normal (s', [OutEmit (ToOthers "b", EvUserJoined "bob" 4);
                   OutEmit (ToAll, EvUsersUpdate ["alice"; "bob"])]) /\
    receives s' (ToOthers "b") "a" = true.
Proof.
  intros s.
  destruct (join_lists_the_joiner_once "b" " bob " 3 4 s)
    as (s' & roster & Hstep & _ & _ & _ & _ & Hrecv).
  - reflexivity.
  - vm_compute. discriminate.
  - apply (JsMapFacts.wf_set "alice"), NoDup_nil_2.
  - exists s'. split; [|apply (Hrecv "a"); [discriminate | reflexivity]].
    rewrite Hstep.
    assert (step (InJoin "b" (JStr " bob ") 3 4) s =
            Normal (joined "b" "bob" 3 s,
                    [OutEmit (ToOthers "b", EvUserJoined "bob" 4);
                     OutEmit (ToAll, EvUsersUpdate ["alice"; "bob"])])) as E
      by (vm_compute; reflexivity).
    rewrite Hstep in E. injection E as _ ->. reflexivity.
Defined.

(** ** Joining again under another name *)



(** ** Typing indicators on the server *)



(** ** The active-user list *)





(** ** A store that connected *)

Lemma step_source_connected i s s' out r :
  isDbConnected s = true ->
  step i s = Normal (s', out) ->
  OutMessages r ∈ out ->
  exists fault,
    i = InGetMessages fault /\
    source r = (if fault then "memory-fallback" else "database").
Proof.
  intros Hdb Hstep Hr.
  destruct i as [ok|sid|sid p t1 t2|sid d now f|sid d|sid now|f|]; simpl in Hstep.
  1, 2: injection Hstep as <- <-; by apply elem_of_nil in Hr.
  6: injection Hstep as <- <-; apply list_elem_of_singleton in Hr; discriminate.
  1, 2, 3, 4:
    destruct (is_connected s sid);
      [apply emitted_inv in Hstep as (em & _ & ->);
       apply list_elem_of_fmap in Hr as (e & He & _); discriminate
      |injection Hstep as <- <-; by apply elem_of_nil in Hr].
  injection Hstep as <- <-.
  apply list_elem_of_singleton in Hr. injection Hr as ->.
  exists f. split; [done|]. unfold api_messages, db_find_recent.
  rewrite Hdb. by destruct f.
Qed.

(** X6: once [connectDB] has succeeded, [isDbConnected] stays true whatever
    requests follow, and every later [/api/messages] response has source
    [database] or, when its query rejected, [memory-fallback]; none has
    source [memory]. *)
Theorem successful_connect_never_reports_memory post s0 s out :
  forallb is_request post = true ->
  run (InConnectDB true :: post) s0 = Normal (s, out) ->
  isDbConnected s = true /\
  (forall r, OutMessages r ∈ out ->
     source r = "database" \/ source r = "memory-fallback").
Proof.
  intros Hpost Hrun.
  apply run_cons_inv in Hrun as (s1 & o1 & o2 & E1 & E2 & ->).
  simpl in E1. injection E1 as <- <-. simpl.
  assert (isDbConnected (set_isDbConnected true s0) = true) as Hdb by done.
  revert Hpost Hdb E2. generalize (set_isDbConnected true s0). revert o2.
  induction post as [|i rest IH]; intros o2 s1 Hpost Hdb Hrun.
  - injection Hrun as <- <-. split; [done|]. intros r Hr.
    by apply elem_of_nil in Hr.
  - simpl in Hpost. apply andb_true_iff in Hpost as [Hi Hrest].
    apply run_cons_inv in Hrun as (s2 & o3 & o4 & E1 & E2 & ->).
    assert (isDbConnected s2 = true) as Hdb2
      by (rewrite <- Hdb; by apply (step_isDbConnected i s1 s2 o3)).
    destruct (IH o4 s2 Hrest Hdb2 E2) as [Hfin Hout].
    split; [done|]. intros r Hr. apply elem_of_app in Hr as [Hr|Hr]; [|by apply Hout].
    destruct (step_source_connected i s1 s2 o3 r Hdb E1 Hr) as (f & _ & ->).
    destruct f; [by right | by left].
Qed.

Lemma successful_connect_never_reports_memory_witness :
  exists s out,
    run (InConnectDB true :: [InGetMessages false; InGetMessages true]) (boot []) =
      Normal (s, out) /\
    isDbConnected s = true /\
    forall r, OutMessages r ∈ out ->
      source r = "database" \/ source r = "memory-fallback".
Proof.
  assert (exists s out,
            run (InConnectDB true :: [InGetMessages false; InGetMessages true]) (boot [])
            = Normal (s, out)) as (s & out & Hrun)
    by (eexists _, _; vm_compute; reflexivity).
  exists s, out. split; [exact Hrun|].
  apply (successful_connect_never_reports_memory
           [InGetMessages false; InGetMessages true] (boot []) s out eq_refl Hrun).
Defined.

(** ** The store only grows *)

Lemma step_collection i s s' out :
  step i s = Normal (s', out) ->
  exists added,
    collection s' = collection s ++ added /\
    (forall m, m ∈ added -> OutEmit (ToAll, EvNewMessage m) ∈ out) /\
    (isDbConnected s = false -> added = []).
Proof.
  assert (forall s1 : Server, collection s1 = collection s ->
            exists added,
              collection s1 = collection s ++ added /\
              (forall m, m ∈ added -> OutEmit (ToAll, EvNewMessage m) ∈ out) /\
              (isDbConnected s = false -> added = [])) as Hsame.
  { intros s1 E. exists []. rewrite app_nil_r. split; [done|].
    split; [|done]. intros m Hm. by apply elem_of_nil in Hm. }
  destruct i as [ok|sid|sid p t1 t2|sid d now f|sid d|sid now|f|]; simpl.
  - intros [= <- <-]. apply Hsame. unfold connectDB. by destruct ok.
  - intros [= <- <-]. apply Hsame, on_connection_frame.
  - destruct (is_connected s sid); [|intros [= <- <-]; by apply Hsame].
    intros H. apply emitted_inv in H as (em & H & _).
    apply Hsame. by apply on_join_frame in H as (_ & _ & ?).
  - destruct (is_connected s sid); [|intros [= <- <-]; by apply Hsame].
    intros H. apply emitted_inv in H as (em & H & ->).
    apply on_send_message_inv in H
      as [(_ & -> & _)|[(-> & _)|(n & body & _ & _ & _ & _ & -> & ->)]];
      [by apply Hsame | by apply Hsame |].
    rewrite try_save_collection. simpl.
    destruct (isDbConnected s) eqn:Hdb, f; simpl.
    2: { eexists [_]. split; [done|]. split; [|done].
         intros m Hm. apply list_elem_of_singleton in Hm as ->.
         apply list_elem_of_singleton. done. }
    all: exists []; rewrite app_nil_r; split; [done|]; split; [|done];
      intros m Hm; by apply elem_of_nil in Hm.
  - destruct (is_connected s sid); [|intros [= <- <-]; by apply Hsame].
    intros H. apply emitted_inv in H as (em & H & _).
    apply Hsame. by apply on_typing_frame in H as ->.
  - destruct (is_connected s sid); [|intros [= <- <-]; by apply Hsame].
    intros H. apply emitted_inv in H as (em & H & _).
    apply Hsame. apply on_disconnect_frame in H as (_ & _ & ->).
    apply close_socket_frame.
  - intros [= <- <-]. by apply Hsame.
  - intros [= <- <-]. by apply Hsame.
Qed.

(** X7: over any run the store's collection only grows at its end: no
    document is removed or changed. Every document the run added was also
    broadcast as a [new-message] to all, and while [isDbConnected] is false
    nothing is added. *)
Theorem store_is_append_only inputs s s' out :
  run inputs s = Normal (s', out) ->
  exists added,
    collection s' = collection s ++ added /\
    (forall m, m ∈ added -> OutEmit (ToAll, EvNewMessage m) ∈ out) /\
    (isDbConnected s = false -> forallb is_request inputs = true -> added = []).
Proof.
  revert s out. induction inputs as [|i rest IH]; intros s out Hrun.
  - injection Hrun as <- <-. exists []. rewrite app_nil_r. split; [done|].
    split; [|done]. intros m Hm. by apply elem_of_nil in Hm.
  - apply run_cons_inv in Hrun as (s1 & o1 & o2 & E1 & E2 & ->).
    destruct (step_collection i s s1 o1 E1) as (a1 & Hc1 & Hb1 & Hn1).
    destruct (IH s1 o2 E2) as (a2 & Hc2 & Hb2 & Hn2).
    exists (a1 ++ a2). split; [by rewrite Hc2, Hc1, app_assoc|]. split.
    + intros m Hm. apply elem_of_app. apply elem_of_app in Hm as [Hm|Hm].
      * left. by apply Hb1.
      * right. by apply Hb2.
    + intros Hdb Hreq. simpl in Hreq. apply andb_true_iff in Hreq as [Hi Hrest].
      rewrite (Hn1 Hdb), Hn2; [done| |done].
      rewrite <- Hdb. by apply (step_isDbConnected i s s1 o1).
Qed.

Lemma store_is_append_only_witness :
  let s := connectDB true (joined "a" "alice" 1 (on_connection "a" (boot []))) in
  exists s' out added,
    run [InSendMessage "a" (message_payload "one") 2 false;
         InSendMessage "a" (message_payload "two") 3 true;
         InSendMessage "a" (message_payload "three") 4 false] s = Normal (s', out) /\
    collection s' = collection s ++ added /\
    (forall m, m ∈ added -> OutEmit (ToAll, EvNewMessage m) ∈ out).
Proof.
  intros s.
  assert (exists s' out,
            run [InSendMessage "a" (message_payload "one") 2 false;
                 InSendMessage "a" (message_payload "two") 3 true;
                 InSendMessage "a" (message_payload "three") 4 false] s
            = Normal (s', out)) as (s' & out & Hrun)
    by (eexists _, _; vm_compute; reflexivity).
  destruct (store_is_append_only _ s s' out Hrun) as (added & Hc & Hb & _).
  by exists s', out, added.
Defined.

(** ** Who gets which event *)

(** X8: every event a step emits is caused by a socket input, and its target
    is fixed by its kind: an [error] goes to the causing socket alone;
    [user-joined], [user-left] and [user-typing] go to all but the causing
    socket; [users-update] and [new-message] go to all. No [error] is ever
    broadcast and the routes emit no event. *)
Theorem events_are_routed_by_kind i s s' out t e :
  step i s = Normal (s', out) ->
  OutEmit (t, e) ∈ out ->
  exists sid, input_socket i = Some sid /\ t = route sid e.
Proof.
  intros Hstep He.
  assert (forall sid em, out = map OutEmit em ->
            (forall t0 e0, (t0, e0) ∈ em -> t0 = route sid e0) ->
            t = route sid e) as Huse.
  { intros sid em -> H. apply list_elem_of_fmap in He as ([t0 e0] & [= <- <-] & Hin).
    by apply H. }
  destruct i as [ok|sid|sid p t1 t2|sid d now f|sid d|sid now|f|]; simpl in Hstep.
  1, 2: injection Hstep as <- <-; by apply elem_of_nil in He.
  5: injection Hstep as <- <-; apply list_elem_of_singleton in He; discriminate.
  5: injection Hstep as <- <-; apply list_elem_of_singleton in He; discriminate.
  all: exists sid; split; [done|].
  all: destruct (is_connected s sid);
    [|injection Hstep as <- <-; by apply elem_of_nil in He].
  all: apply emitted_inv in Hstep as (em & Hh & Hout); apply (Huse sid em Hout).
  all: intros t0 e0 Hin.
  - apply on_join_inv in Hh as [(_ & ->)|(x & _ & _ & _ & ->)];
      repeat (apply elem_of_cons in Hin as [[= -> ->]|Hin]; [done|]);
      by apply elem_of_nil in Hin.
  - apply on_send_message_inv in Hh
      as [(_ & _ & ->)|[(_ & ->)|(n & body & _ & _ & _ & _ & _ & ->)]];
      repeat (apply elem_of_cons in Hin as [[= -> ->]|Hin]; [done|]);
      by apply elem_of_nil in Hin.
  - apply on_typing_inv in Hh as (_ & [->|(n & flag & _ & _ & ->)]);
      repeat (apply elem_of_cons in Hin as [[= -> ->]|Hin]; [done|]);
      by apply elem_of_nil in Hin.
  - apply on_disconnect_inv in Hh as [(_ & ->)|(n & _ & _ & _ & ->)];
      repeat (apply elem_of_cons in Hin as [[= -> ->]|Hin]; [done|]);
      by apply elem_of_nil in Hin.
Qed.

Lemma events_are_routed_by_kind_witness :
  let s := on_connection "a" initial in
  exists sid,
    input_socket (InSendMessage "a" (message_payload "hi") 1 false) = Some sid /\
    ToSocket "a" = route sid (EvError "You must join first").
Proof.
  intros s.
  apply (events_are_routed_by_kind
           (InSendMessage "a" (message_payload "hi") 1 false) s s
           [OutEmit (ToSocket "a", EvError "You must join first")]).
  - reflexivity.
  - apply list_elem_of_singleton. reflexivity.
Defined.

(** ** The roster follows the registry *)

Lemma step_activeUsers_cases i s s' out :
  step i s = Normal (s', out) ->
  activeUsers s' = activeUsers s \/
  (exists t, OutEmit (t, EvUsersUpdate (JsMap.keys (activeUsers s'))) ∈ out).
Proof.
  destruct i as [ok|sid|sid p t1 t2|sid d now f|sid d|sid now|f|]; simpl.
  - intros [= <- <-]. left. unfold connectDB. by destruct ok.
  - intros [= <- <-]. left. unfold on_connection. by destruct (sockets s !! sid).
  - destruct (is_connected s sid); [|intros [= <- <-]; by left].
    intros H. apply emitted_inv in H as (em & H & ->).
    apply on_join_inv in H as [(-> & _)|(x & _ & _ & _ & ->)]; [by left|].
    right. exists ToAll. simpl. apply elem_of_cons. right.
    apply elem_of_cons. by left.
  - destruct (is_connected s sid); [|intros [= <- <-]; by left].
    intros H. apply emitted_inv in H as (em & H & _).
    left. by apply on_send_message_activeUsers in H.
  - destruct (is_connected s sid); [|intros [= <- <-]; by left].
    intros H. apply emitted_inv in H as (em & H & _).
    left. by apply on_typing_frame in H as ->.
  - destruct (is_connected s sid); [|intros [= <- <-]; by left].
    intros H. apply emitted_inv in H as (em & H & ->).
    apply on_disconnect_inv in H as [(-> & _)|(n & _ & _ & _ & ->)].
    + left. apply activeUsers_close.
    + right. exists ToAll. simpl. apply elem_of_cons. right.
      apply elem_of_cons. by left.
  - intros [= <- <-]. by left.
  - intros [= <- <-]. by left.
Qed.

(** X9: every [users-update] a step emits carries the names of the registry
    as the step leaves it, in registry order; and every step that changes
    the registry emits such a [users-update]. *)
Theorem roster_broadcast_follows_registry i s s' out :
  step i s = Normal (s', out) ->
  (forall t roster,
     OutEmit (t, EvUsersUpdate roster) ∈ out ->
     roster = JsMap.keys (activeUsers s')) /\
  (activeUsers s' <> activeUsers s ->
   exists t, OutEmit (t, EvUsersUpdate (JsMap.keys (activeUsers s'))) ∈ out).
Proof.
  intros Hstep. split.
  - intros t roster He.
    destruct i as [ok|sid|sid p t1 t2|sid d now f|sid d|sid now|f|]; simpl in Hstep.
    1, 2: injection Hstep as <- <-; by apply elem_of_nil in He.
    5: injection Hstep as <- <-; apply list_elem_of_singleton in He; discriminate.
    5: injection Hstep as <- <-; apply list_elem_of_singleton in He; discriminate.
    all: destruct (is_connected s sid);
      [|injection Hstep as <- <-; by apply elem_of_nil in He].
    all: apply emitted_inv in Hstep as (em & Hh & ->);
      apply list_elem_of_fmap in He as ([t0 e0] & [= <- <-] & Hin).
    + apply on_join_inv in Hh as [(_ & ->)|(x & _ & _ & _ & ->)];
        repeat (apply elem_of_cons in Hin as [Hin|Hin];
                [by injection Hin|]);
        by apply elem_of_nil in Hin.
    + apply on_send_message_inv in Hh
        as [(_ & _ & ->)|[(_ & ->)|(n & body & _ & _ & _ & _ & _ & ->)]];
        repeat (apply elem_of_cons in Hin as [Hin|Hin];
                [by injection Hin|]);
        by apply elem_of_nil in Hin.
    + apply on_typing_inv in Hh as (_ & [->|(n & flag & _ & _ & ->)]);
        repeat (apply elem_of_cons in Hin as [Hin|Hin];
                [by injection Hin|]);
        by apply elem_of_nil in Hin.
    + apply on_disconnect_inv in Hh as [(_ & ->)|(n & _ & _ & _ & ->)];
        repeat (apply elem_of_cons in Hin as [Hin|Hin];
                [by injection Hin|]);
        by apply elem_of_nil in Hin.
  - intros Hchg. by destruct (step_activeUsers_cases i s s' out Hstep).
Qed.

Lemma roster_broadcast_follows_registry_witness :
  let s := joined "a" "alice" 1 (on_connection "b" (on_connection "a" initial)) in
  exists s' out,
    step (InJoin "b" (JStr "bob") 2 3) s = Normal (s', out) /\
    forall t roster,
      OutEmit (t, EvUsersUpdate roster) ∈ out ->
      roster = JsMap.keys (activeUsers s').
Proof.
  intros s.
  assert (exists s' out, step (InJoin "b" (JStr "bob") 2 3) s = Normal (s', out))
    as (s' & out & Hstep) by (eexists _, _; vm_compute; reflexivity).
  exists s', out. split; [exact Hstep|].
  apply (roster_broadcast_follows_registry _ s s' out Hstep).
Defined.

(** ** Names and bodies are kept trimmed *)

Lemma username_of_on_connection sid r s :
  username_of (on_connection sid s) r = username_of s r.
Proof.
  unfold on_connection, username_of.
  destruct (sockets s !! sid) as [k|] eqn:E; simpl; [done|].
  rewrite lookup_insert. case_decide; [subst; by rewrite E | done].
Qed.

Lemma elem_of_push_message m' m buf :
  m' ∈ push_message m buf -> m' = m \/ m' ∈ buf.
Proof.
  rewrite push_message_slice. unfold slice_last. intros H.
  apply (subseteq_drop _ _ m') in H.
  apply elem_of_app in H as [H|H]; [by right|].
  apply list_elem_of_singleton in H. by left.
Qed.

Lemma well_named_boot docs : well_named (boot docs).
Proof.
  split; [|split].
  - intros k Hk. by apply elem_of_nil in Hk.
  - intros sid n Hn. unfold username_of in Hn. simpl in Hn.
    by rewrite lookup_empty in Hn.
  - intros m Hm. by apply elem_of_nil in Hm.
Qed.

Lemma well_named_same s s' :
  activeUsers s' = activeUsers s ->
  (forall r, username_of s' r = username_of s r) ->
  memoryMessages s' = memoryMessages s ->
  well_named s -> well_named s'.
Proof.
  intros Ha Hu Hm (H1 & H2 & H3). unfold well_named.
  rewrite Ha, Hm. split; [done|]. split; [|done].
  intros sid n. rewrite Hu. apply H2.
Qed.

Lemma step_well_named i s s' out :
  step i s = Normal (s', out) ->
  well_named s ->
  well_named s' /\
  (forall t m, OutEmit (t, EvNewMessage m) ∈ out ->
     (username m <> "" /\ trimmed (username m)) /\
     (message m <> "" /\ trimmed (message m))).
Proof.
  intros Hstep Hwn.
  assert (forall em : list Emission,
            (forall t e, (t, e) ∈ em -> forall m, e <> EvNewMessage m) ->
            forall t m, OutEmit (t, EvNewMessage m) ∈ map OutEmit em ->
              (username m <> "" /\ trimmed (username m)) /\
              (message m <> "" /\ trimmed (message m))) as Hnone.
  { intros em H t m Hin.
    apply list_elem_of_fmap in Hin as ([t0 e0] & [= <- <-] & Hin).
    by destruct (H _ _ Hin m). }
  destruct i as [ok|sid|sid p t1 t2|sid d now f|sid d|sid now|f|]; simpl in Hstep.
  - injection Hstep as <- <-. split; [|apply (Hnone []); intros ? ? H; by apply elem_of_nil in H].
    apply (well_named_same s); try done; unfold connectDB; by destruct ok.
  - injection Hstep as <- <-. split; [|apply (Hnone []); intros ? ? H; by apply elem_of_nil in H].
    apply (well_named_same s); try done.
    + unfold on_connection. by destruct (sockets s !! sid).
    + intros r. apply username_of_on_connection.
    + unfold on_connection. by destruct (sockets s !! sid).
  - destruct (is_connected s sid);
      [|injection Hstep as <- <-; split;
        [done | apply (Hnone []); intros ? ? H; by apply elem_of_nil in H]].
    apply emitted_inv in Hstep as (em & Hh & ->).
    apply on_join_inv in Hh as [(-> & ->)|(x & _ & Hx & -> & ->)].
    + split; [done|]. apply Hnone. intros t e H m.
      apply list_elem_of_singleton in H. by injection H as _ ->.
    + split.
      * destruct Hwn as (H1 & H2 & H3). split; [|split].
        -- intros k Hk. unfold joined in Hk. simpl in Hk.
           apply JsMap_keys_set_inv in Hk as [->|Hk]; [|by apply H1].
           split; [done | apply trimmed_trim].
        -- intros r n. rewrite username_of_joined. case_decide; [|apply H2].
           intros [= <-]. split; [done | apply trimmed_trim].
        -- exact H3.
      * apply Hnone. intros t e H m.
        repeat (apply elem_of_cons in H as [H|H]; [by injection H as _ ->|]).
        by apply elem_of_nil in H.
  - destruct (is_connected s sid);
      [|injection Hstep as <- <-; split;
        [done | apply (Hnone []); intros ? ? H; by apply elem_of_nil in H]].
    apply emitted_inv in Hstep as (em & Hh & ->).
    apply on_send_message_inv in Hh
      as [(_ & -> & ->)|[(-> & ->)|(n & body & Hn & _ & _ & Hb & -> & ->)]].
    + split; [done|]. apply Hnone. intros t e H m.
      apply list_elem_of_singleton in H. by injection H as _ ->.
    + split; [done|]. apply (Hnone []). intros ? ? H. by apply elem_of_nil in H.
    + destruct Hwn as (H1 & H2 & H3).
      assert ((n <> "" /\ trimmed n) /\ (trim body <> "" /\ trimmed (trim body)))
        as Hm by (split; [by apply (H2 sid) | split; [done | apply trimmed_trim]]).
      split.
      * split; [|split].
        -- by rewrite try_save_activeUsers.
        -- intros r k. unfold username_of. rewrite try_save_sockets. apply H2.
        -- intros m. rewrite try_save_memoryMessages. simpl.
           intros Hin. apply elem_of_push_message in Hin as [->|Hin]; [done|].
           by apply H3.
      * intros t m Hin. apply list_elem_of_singleton in Hin.
        by injection Hin as _ ->.
  - destruct (is_connected s sid);
      [|injection Hstep as <- <-; split;
        [done | apply (Hnone []); intros ? ? H; by apply elem_of_nil in H]].
    apply emitted_inv in Hstep as (em & Hh & ->).
    apply on_typing_inv in Hh as (-> & [->|(n & flag & _ & _ & ->)]).
    + split; [done|]. apply (Hnone []). intros ? ? H. by apply elem_of_nil in H.
    + split; [done|]. apply Hnone. intros t e H m.
      apply list_elem_of_singleton in H. by injection H as _ ->.
  - destruct (is_connected s sid);
      [|injection Hstep as <- <-; split;
        [done | apply (Hnone []); intros ? ? H; by apply elem_of_nil in H]].
    apply emitted_inv in Hstep as (em & Hh & ->).
    assert (well_named (close_socket sid s)) as Hwc.
    { apply (well_named_same s); [apply activeUsers_close | | apply close_socket_frame | done].
      intros r. apply username_of_close. }
    apply on_disconnect_inv in Hh as [(-> & ->)|(n & _ & _ & -> & ->)].
    + split; [done|]. apply (Hnone []). intros ? ? H. by apply elem_of_nil in H.
    + split.
      * destruct Hwc as (H1 & H2 & H3). split; [|split]; [|exact H2|exact H3].
        intros k Hk. simpl in Hk. apply H1.
        by apply (JsMapFacts.keys_delete_subseteq n).
      * apply Hnone. intros t e H m.
        repeat (apply elem_of_cons in H as [H|H]; [by injection H as _ ->|]).
        by apply elem_of_nil in H.
  - injection Hstep as <- <-. split; [done|]. intros t m H.
    apply list_elem_of_singleton in H. discriminate.
  - injection Hstep as <- <-. split; [done|]. intros t m H.
    apply list_elem_of_singleton in H. discriminate.
Qed.

(** X10: in every state the process reaches, each name in the registry,
    each socket's name, and the author and body of each buffered message is
    non-empty and has no white space at either end; and every [new-message]
    the run broadcast carries such an author and such a body. *)
Theorem names_and_bodies_stay_trimmed docs inputs s out :
  run inputs (boot docs) = Normal (s, out) ->
  well_named s /\
  (forall t m, OutEmit (t, EvNewMessage m) ∈ out ->
     (username m <> "" /\ trimmed (username m)) /\
     (message m <> "" /\ trimmed (message m))).
Proof.
  generalize (well_named_boot docs). generalize (boot docs).
  revert out. induction inputs as [|i rest IH]; intros out s0 Hwn Hrun.
  - injection Hrun as <- <-. split; [done|]. intros t m H.
    by apply elem_of_nil in H.
  - apply run_cons_inv in Hrun as (s1 & o1 & o2 & E1 & E2 & ->).
    destruct (step_well_named i s0 s1 o1 E1 Hwn) as [Hwn1 Hout1].
    destruct (IH o2 s1 Hwn1 E2) as [Hfin Hout2].
    split; [done|]. intros t m H. apply elem_of_app in H as [H|H].
    + by apply (Hout1 t).
    + by apply (Hout2 t).
Qed.

Lemma names_and_bodies_stay_trimmed_witness :
  exists s out,
    run [InConnection "a"; InJoin "a" (JStr "  alice ") 1 2;
         InSendMessage "a" (message_payload " hello there  ") 3 false]
      (boot []) = Normal (s, out) /\
    well_named s /\
    map message (memoryMessages s) = ["hello there"].
Proof.
  assert (exists s out,
            run [InConnection "a"; InJoin "a" (JStr "  alice ") 1 2;
                 InSendMessage "a" (message_payload " hello there  ") 3 false]
              (boot []) = Normal (s, out) /\
            map message (memoryMessages s) = ["hello there"])
    as (s & out & Hrun & Hbuf)
    by (eexists _, _; split; vm_compute; reflexivity).
  exists s, out. split; [exact Hrun|]. split; [|exact Hbuf].
  apply (names_and_bodies_stay_trimmed [] _ s out Hrun).
Defined.

(** ** A name is never taken back *)

Lemma step_username_kept i s s' out sid n :
  step i s = Normal (s', out) ->
  username_of s sid = Some n ->
  exists n',
    username_of s' sid = Some n' /\
    ((forall p t1 t2, i <> InJoin sid p t1 t2) -> n' = n).
Proof.
  intros Hstep Hu.
  assert (forall s1 : Server, (forall r, username_of s1 r = username_of s r) ->
            exists n', username_of s1 sid = Some n' /\
              ((forall p t1 t2, i <> InJoin sid p t1 t2) -> n' = n)) as Hsame.
  { intros s1 H. exists n. by rewrite H. }
  destruct i as [ok|sid0|sid0 p t1 t2|sid0 d now f|sid0 d|sid0 now|f|]; simpl in Hstep.
  - injection Hstep as <- <-. apply Hsame. intros r. unfold connectDB. by destruct ok.
  - injection Hstep as <- <-. apply Hsame. intros r. apply username_of_on_connection.
  - destruct (is_connected s sid0); [|injection Hstep as <- <-; by apply Hsame].
    apply emitted_inv in Hstep as (em & Hh & _).
    apply on_join_inv in Hh as [(-> & _)|(x & -> & _ & -> & _)]; [by apply Hsame|].
    rewrite username_of_joined. case_decide as Heq.
    + subst sid0. eexists. split; [done|]. intros Hno.
      by destruct (Hno (JStr x) t1 t2).
    + exists n. by split.
  - destruct (is_connected s sid0); [|injection Hstep as <- <-; by apply Hsame].
    apply emitted_inv in Hstep as (em & Hh & _).
    apply on_send_message_inv in Hh
      as [(_ & -> & _)|[(-> & _)|(k & body & _ & _ & _ & _ & -> & _)]];
      [by apply Hsame | by apply Hsame |].
    apply Hsame. intros r. unfold username_of. by rewrite try_save_sockets.
  - destruct (is_connected s sid0); [|injection Hstep as <- <-; by apply Hsame].
    apply emitted_inv in Hstep as (em & Hh & _).
    apply on_typing_inv in Hh as (-> & _). by apply Hsame.
  - destruct (is_connected s sid0); [|injection Hstep as <- <-; by apply Hsame].
    apply emitted_inv in Hstep as (em & Hh & _).
    apply on_disconnect_inv in Hh as [(-> & _)|(k & _ & _ & -> & _)];
      apply Hsame; intros r; apply username_of_close.
  - injection Hstep as <- <-. by apply Hsame.
  - injection Hstep as <- <-. by apply Hsame.
Qed.

(** X11: no handler clears [socket.username]: a socket that has a name
    still has one after any run, and the name is the same unless the run
    holds a [join] from that very socket. *)
Theorem a_name_is_never_taken_back inputs s s' out sid n :
  run inputs s = Normal (s', out) ->
  username_of s sid = Some n ->
  exists n',
    username_of s' sid = Some n' /\
    (Forall (fun i => forall p t1 t2, i <> InJoin sid p t1 t2) inputs -> n' = n).
Proof.
  revert s out n. induction inputs as [|i rest IH]; intros s out n Hrun Hu.
  - injection Hrun as <- <-. by exists n.
  - apply run_cons_inv in Hrun as (s1 & o1 & o2 & E1 & E2 & ->).
    destruct (step_username_kept i s s1 o1 sid n E1 Hu) as (n1 & Hu1 & Hsame1).
    destruct (IH s1 o2 n1 E2 Hu1) as (n2 & Hu2 & Hsame2).
    exists n2. split; [done|]. intros Hno.
    apply Forall_cons in Hno as [Hi Hrest].
    by rewrite (Hsame2 Hrest), (Hsame1 Hi).
Qed.

Lemma a_name_is_never_taken_back_witness :
  let s := joined "a" "alice" 1 (on_connection "b" (on_connection "a" initial)) in
  exists s' out n',
    run [InTyping "a" (typing_payload true); InJoin "b" (JStr "bob") 2 3;
         InSendMessage "a" (message_payload "hi") 4 false; InDisconnect "a" 5] s
      = Normal (s', out) /\
    username_of s' "a" = Some n' /\ n' = "alice".
Proof.
  intros s.
  assert (exists s' out,
            run [InTyping "a" (typing_payload true); InJoin "b" (JStr "bob") 2 3;
                 InSendMessage "a" (message_payload "hi") 4 false; InDisconnect "a" 5] s
            = Normal (s', out)) as (s' & out & Hrun)
    by (eexists _, _; vm_compute; reflexivity).
  destruct (a_name_is_never_taken_back _ s s' out "a" "alice" Hrun eq_refl)
    as (n' & Hu & Hsame).
  exists s', out, n'. split; [exact Hrun|]. split; [exact Hu|].
  apply Hsame. repeat (constructor; [intros; discriminate|]). constructor.
Defined.

(** ** The client and the server agree on names and bodies *)

(** X12: whenever [joinChat] emits a [join], the name it sends is the
    trimmed input, non-empty and of at most 20 characters, and it is the
    name the client keeps as its current user; the server's [join] handler
    accepts that name on any open connection and gives the socket exactly
    that name. The client never sends a [join] the server would answer with
    an [error]. *)
Theorem client_join_is_accepted_by_server value c name :
  SocketEmitJoin name ∈ snd (joinChat value c) ->
  (name = trim value /\ name <> "" /\ (String.length name <= 20)%nat /\
   currentUser (fst (joinChat value c)) = Some name) /\
  (forall sid t1 t2 s,
     is_connected s sid = true ->
     exists s',
       step (InJoin sid (JStr name) t1 t2) s =
         Normal (s', [OutEmit (ToOthers sid, EvUserJoined name t2);
                      OutEmit (ToAll, EvUsersUpdate (JsMap.keys (activeUsers s')))]) /\
       username_of s' sid = Some name).
Proof.
  unfold joinChat.
  destruct (String.eqb_spec (trim value) "") as [He|He]; simpl.
  { intros H. apply list_elem_of_singleton in H. discriminate. }
  destruct (Nat.ltb_spec 20 (String.length (trim value))) as [Hl|Hl]; simpl.
  { intros H. apply list_elem_of_singleton in H. discriminate. }
  intros H. apply elem_of_cons in H as [[= ->]|H];
    [|apply list_elem_of_singleton in H; discriminate].
  split; [done|].
  intros sid t1 t2 s Hc. exists (joined sid (trim value) t1 s).
  pose proof (step_join_accepts sid (trim value) t1 t2 s Hc) as E.
  rewrite trim_idem in E. split; [by apply E|].
  rewrite username_of_joined. by case_decide.
Qed.

Lemma client_join_is_accepted_by_server_witness :
  let c := {| currentUser := None; joinModalHidden := false |} in
  currentUser (fst (joinChat "  alice " c)) = Some "alice" /\
  exists s',
    step (InJoin "a" (JStr "alice") 1 2) (on_connection "a" initial) =
      Normal (s', [OutEmit (ToOthers "a", EvUserJoined "alice" 2);
                   OutEmit (ToAll, EvUsersUpdate (JsMap.keys (activeUsers s')))]) /\
    username_of s' "a" = Some "alice".
Proof.
  intros c.
  destruct (client_join_is_accepted_by_server "  alice " c "alice")
    as ((_ & _ & _ & Hcur) & Hsrv).
  - vm_compute. apply elem_of_cons. by left.
  - split; [exact Hcur|].
    apply (Hsrv "a" 1 2 (on_connection "a" initial)). reflexivity.
Defined.

(** X13: [sendMessage] with a blank input emits nothing and leaves the
    input and the typing state alone. Otherwise it emits a [send-message]
    whose body is the trimmed input, after the [typing] stop if the client
    was typing, and empties the input; on a joined connection the server
    broadcasts exactly that body under the socket's name, so a message the
    client sends is never dropped as blank. *)
Theorem client_send_is_broadcast_verbatim value st :
  (trim value = "" -> sendMessage value st = ((value, st), [])) /\
  (trim value <> "" ->
   sendMessage value st =
     (("", {| isTyping := false; typingTimer := false |}),
      (if isTyping st then [EmitTyping false] else []) ++
      [EmitSendMessage (trim value)]) /\
   forall sid now save_fault s,
     Active s sid ->
     exists s',
       step (emit_input sid now save_fault (EmitSendMessage (trim value))) s =
         Normal (s', [OutEmit (ToAll,
                        EvNewMessage {| username := name_or_empty (username_of s sid);
                                        message := trim value;
                                        timestamp := now |})])).
Proof.
  split.
  - intros Hb. unfold sendMessage. by rewrite Hb.
  - intros Hb. split.
    + unfold sendMessage, clearTyping. rewrite (eqb_empty_false _ Hb).
      by destruct st as [[] ?].
    + intros sid now save_fault s [Hc Hu]. eexists. simpl. rewrite Hc.
      assert (trim (trim value) <> "") as Hb' by (by rewrite trim_idem).
      rewrite (on_send_message_valid sid (message_payload (trim value)) (trim value)
                 now save_fault s Hu eq_refl Hb').
      simpl. by rewrite trim_idem.
Qed.

Lemma client_send_is_broadcast_verbatim_witness :
  sendMessage "   " {| isTyping := true; typingTimer := true |} =
    (("   ", {| isTyping := true; typingTimer := true |}), []) /\
  sendMessage " hi " {| isTyping := true; typingTimer := true |} =
    (("", {| isTyping := false; typingTimer := false |}),
     [EmitTyping false; EmitSendMessage "hi"]).
Proof.
  split.
  - apply (proj1 (client_send_is_broadcast_verbatim "   " _)). reflexivity.
  - apply (proj2 (client_send_is_broadcast_verbatim " hi "
                    {| isTyping := true; typingTimer := true |})).
    vm_compute. discriminate.
Defined.

(** ** The typing announcements of the client *)

Lemma typing_flags_app o1 o2 :
  typing_flags (o1 ++ o2) = typing_flags o1 ++ typing_flags o2.
Proof. unfold typing_flags. apply flat_map_app. Qed.

Lemma typing_step_flags a st :
  (typing_flags (snd (typing_step a st)) = [] /\
   isTyping (fst (typing_step a st)) = isTyping st) \/
  (typing_flags (snd (typing_step a st)) = [negb (isTyping st)] /\
   isTyping (fst (typing_step a st)) = negb (isTyping st)).
Proof.
  destruct st as [ty tm], a as [| |value]; simpl.
  - unfold handleTyping. simpl. destruct ty; simpl; [by left | by right].
  - unfold typing_timeout, clearTyping. simpl.
    destruct tm, ty; simpl; (by left) || (by right).
  - unfold sendMessage, clearTyping. simpl.
    destruct (String.eqb (trim value) ""), ty; simpl; (by left) || (by right).
Qed.

Lemma typing_step_timer a st :
  (isTyping st = true -> typingTimer st = true) ->
  isTyping (fst (typing_step a st)) = true ->
  typingTimer (fst (typing_step a st)) = true.
Proof.
  destruct st as [ty tm], a as [| |value]; simpl.
  - unfold handleTyping. simpl. by destruct ty.
  - unfold typing_timeout, clearTyping. simpl. destruct tm, ty; simpl; auto.
  - unfold sendMessage, clearTyping. simpl.
    destruct (String.eqb (trim value) ""), ty; simpl; auto.
Qed.

(** X14: over any sequence of key strokes, time-outs and submissions, the
    [typing] events the client emits alternate: each carries the opposite
    flag of the one before, the first being the opposite of [isTyping] at
    the start; so a fresh client sends true, false, true, and so on, and
    never the same flag twice in a row. While the client holds [isTyping],
    its stop timer is pending. *)
Theorem typing_announcements_alternate acts st :
  alternates (isTyping st) (typing_flags (snd (typing_run acts st))) = true /\
  ((isTyping st = true -> typingTimer st = true) ->
   isTyping (fst (typing_run acts st)) = true ->
   typingTimer (fst (typing_run acts st)) = true).
Proof.
  revert st. induction acts as [|a rest IH]; intros st; [by split|].
  destruct (IH (fst (typing_step a st))) as [Halt Htimer].
  simpl. rewrite typing_flags_app. split.
  - destruct (typing_step_flags a st) as [[-> E]|[-> E]]; simpl.
    + by rewrite E in Halt.
    + rewrite E in Halt. rewrite Halt. by destruct (isTyping st).
  - intros Hinv. apply Htimer. by apply typing_step_timer.
Qed.

Lemma typing_announcements_alternate_witness :
  let st := {| isTyping := false; typingTimer := false |} in
  typing_flags (snd (typing_run [KeyInput; KeyInput; TimerFires; TimerFires;
                                 KeyInput; Submit " hi "; Submit "  "] st))
    = [true; false; true; false] /\
  (isTyping (fst (typing_run [KeyInput; KeyInput] st)) = true ->
   typingTimer (fst (typing_run [KeyInput; KeyInput] st)) = true).
Proof.
  intros st. split; [reflexivity|].
  apply (proj2 (typing_announcements_alternate [KeyInput; KeyInput] st)).
  discriminate.
Defined.

(** ** The typing set of a client *)

Lemma JsSet_has_elem x (ts : JsSet.t) : JsSet.has x ts = true <-> x ∈ ts.
Proof.
  unfold JsSet.has. induction ts as [|y r IH]; simpl.
  - split; [done | intros H; by apply elem_of_nil in H].
  - rewrite orb_true_iff, IH, elem_of_cons, String.eqb_eq. done.
Qed.

Lemma JsSet_add_elem x y (ts : JsSet.t) : y ∈ JsSet.add x ts <-> y = x \/ y ∈ ts.
Proof.
  unfold JsSet.add. destruct (JsSet.has x ts) eqn:E.
  - apply JsSet_has_elem in E. split; [by right | intros [->|?]; done].
  - rewrite elem_of_app, list_elem_of_singleton. tauto.
Qed.

Lemma JsSet_add_NoDup x (ts : JsSet.t) : NoDup ts -> NoDup (JsSet.add x ts).
Proof.
  intros H. unfold JsSet.add. destruct (JsSet.has x ts) eqn:E; [done|].
  apply NoDup_app. split; [done|]. split; [|apply NoDup_singleton].
  intros y Hy Hx. apply list_elem_of_singleton in Hx as ->.
  apply JsSet_has_elem in Hy. congruence.
Qed.

Lemma JsSet_delete_elem x y (ts : JsSet.t) :
  NoDup ts -> (y ∈ JsSet.delete x ts <-> y <> x /\ y ∈ ts).
Proof.
  induction ts as [|z r IH]; simpl; intros Hnd.
  - split; [intros H; by apply elem_of_nil in H | intros [_ H]; done].
  - apply NoDup_cons in Hnd as [Hz Hr].
    destruct (String.eqb_spec x z) as [->|Hne].
    + rewrite elem_of_cons. split.
      * intros H. split; [intros ->; done | by right].
      * intros [Hy [->|H]]; done.
    + rewrite !elem_of_cons, (IH Hr). split.
      * intros [->|[? ?]]; [split; [done | by left] | split; [done | by right]].
      * intros [Hy [->|H]]; [by left | by right].
Qed.

Lemma JsSet_delete_NoDup x (ts : JsSet.t) : NoDup ts -> NoDup (JsSet.delete x ts).
Proof.
  induction ts as [|z r IH]; simpl; intros Hnd; [done|].
  apply NoDup_cons in Hnd as [Hz Hr].
  destruct (String.eqb x z); [done|].
  apply NoDup_cons. split; [|by apply IH].
  intros H. apply Hz. by apply (JsSet_delete_elem x z r Hr) in H as [_ ?].
Qed.

Lemma typing_on_event_NoDup e (ts : JsSet.t) :
  NoDup ts -> NoDup (typing_on_event e ts).
Proof.
  intros H. destruct e as [| | | |n f|]; simpl; try done.
  destruct (truthy f); [by apply JsSet_add_NoDup | by apply JsSet_delete_NoDup].
Qed.

Lemma typing_events_NoDup (evs : list Event) (ts : JsSet.t) :
  NoDup ts -> NoDup (foldl (fun acc e => typing_on_event e acc) ts evs).
Proof.
  revert ts. induction evs as [|e r IH]; intros ts H; [done|].
  simpl. apply IH. by apply typing_on_event_NoDup.
Qed.

(** X15: whatever [user-typing] events a client has handled, its typing set
    holds no name twice; after one more event for [name] the set holds
    [name] exactly when the flag was truthy, however often [name] was
    announced before, and no other name enters or leaves. The indicator is
    hidden exactly when the set is empty and otherwise shows the name that
    has been in the set longest. *)
Theorem typing_set_follows_last_event (evs : list Event) name flag :
  let ts := foldl (fun acc e => typing_on_event e acc) JsSet.empty evs in
  let r := handleUserTyping name flag ts in
  NoDup (fst r) /\
  (name ∈ fst r <-> truthy flag = true) /\
  (forall other, other <> name -> (other ∈ fst r <-> other ∈ ts)) /\
  (snd r = None <-> fst r = []) /\
  snd r = head (fst r).
Proof.
  intros ts r.
  assert (NoDup ts) as Hnd by (apply typing_events_NoDup, NoDup_nil_2).
  unfold r, handleUserTyping. simpl.
  split; [|split; [|split; [|split]]].
  - destruct (truthy flag); [by apply JsSet_add_NoDup | by apply JsSet_delete_NoDup].
  - destruct (truthy flag).
    + rewrite JsSet_add_elem. split; [done | by left].
    + rewrite (JsSet_delete_elem _ _ _ Hnd). split; [by intros [? _] | done].
  - intros other Hne. destruct (truthy flag).
    + rewrite JsSet_add_elem. split; [by intros [?|?] | by right].
    + rewrite (JsSet_delete_elem _ _ _ Hnd). split; [by intros [_ ?] | done].
  - unfold updateTypingIndicator, JsSet.to_array.
    by destruct (if truthy flag then JsSet.add name ts else JsSet.delete name ts).
  - unfold updateTypingIndicator, JsSet.to_array.
    by destruct (if truthy flag then JsSet.add name ts else JsSet.delete name ts).
Qed.

Lemma step_without_typing_emits_none i s s' out :
  step i s = Normal (s', out) ->
  (forall sid d, i <> InTyping sid d) ->
  forall t name flag, (t, EvUserTyping name flag) ∉ emissions out.
Proof.
  intros Hstep Hno t name flag Hin.
  destruct i as [ok|sid|sid p t1 t2|sid d now f|sid d|sid now|f|]; simpl in Hstep.
  5: by destruct (Hno sid d).
  1, 2, 6, 7: injection Hstep as <- <-; by apply elem_of_nil in Hin.
  all: destruct (is_connected s sid);
    [|injection Hstep as <- <-; by apply elem_of_nil in Hin].
  all: apply emitted_inv in Hstep as (em & Hh & ->); rewrite emissions_map in Hin.
  - apply on_join_inv in Hh as [(_ & ->)|(x & _ & _ & _ & ->)];
      repeat (apply elem_of_cons in Hin as [Hin|Hin]; [discriminate|]);
      by apply elem_of_nil in Hin.
  - apply on_send_message_inv in Hh
      as [(_ & _ & ->)|[(_ & ->)|(n & body & _ & _ & _ & _ & _ & ->)]];
      repeat (apply elem_of_cons in Hin as [Hin|Hin]; [discriminate|]);
      by apply elem_of_nil in Hin.
  - apply on_disconnect_inv in Hh as [(_ & ->)|(n & _ & _ & _ & ->)];
      repeat (apply elem_of_cons in Hin as [Hin|Hin]; [discriminate|]);
      by apply elem_of_nil in Hin.
Qed.

Lemma receive_typing_unchanged out (ts : JsSet.t) :
  (forall t name flag, (t, EvUserTyping name flag) ∉ emissions out) ->
  receive_typing out ts = ts.
Proof.
  unfold receive_typing. generalize (emissions out). intros em.
  revert ts. induction em as [|[t e] r IH]; intros ts H; [done|].
  simpl. rewrite IH.
  - destruct e as [| | | |n f|]; try done.
    destruct (H t n f). apply elem_of_cons. by left.
  - intros t0 n f Hin. apply (H t0 n f). apply elem_of_cons. by right.
Qed.

(** X16: the server emits [user-typing] only when it handles a [typing]
    input, so no other step changes a client's typing set. In particular,
    when a joined connection announces typing and then disconnects, the
    disconnect sends no [user-typing]: the name it announced is still in
    the typing set of a client that handled both steps, and that client's
    indicator is still shown. *)
Theorem disconnect_leaves_typing_set sid now s :
  Active s sid ->
  (forall i s1 s2 out (ts : JsSet.t),
     step i s1 = Normal (s2, out) ->
     (forall sid0 d, i <> InTyping sid0 d) ->
     receive_typing out ts = ts) /\
  exists out1 s2 out2,
    step (InTyping sid (typing_payload true)) s = Normal (s, out1) /\
    step (InDisconnect sid now) s = Normal (s2, out2) /\
    forall ts : JsSet.t,
      let ts' := receive_typing out2 (receive_typing out1 ts) in
      (name_or_empty (username_of s sid) ∈ ts') /\
      updateTypingIndicator ts' <> None.
Proof.
  intros Ha.
  assert (forall i s1 s2 out (ts : JsSet.t),
            step i s1 = Normal (s2, out) ->
            (forall sid0 d, i <> InTyping sid0 d) ->
            receive_typing out ts = ts) as Hgen.
  { intros i s1 s2 out ts Hstep Hno.
    apply receive_typing_unchanged.
    by apply (step_without_typing_emits_none i s1 s2 out). }
  split; [exact Hgen|].
  pose proof (step_disconnect_active sid now s Ha) as E2.
  destruct Ha as [Hc Hu].
  eexists _, _, _. split; [|split; [exact E2|]].
  - simpl. rewrite Hc. unfold on_typing. rewrite Hu. reflexivity.
  - intros ts ts'.
    assert (ts' = JsSet.add (name_or_empty (username_of s sid)) ts) as ->.
    { unfold ts'. rewrite (Hgen _ _ _ _ _ E2) by done. reflexivity. }
    split; [apply JsSet_add_elem; by left|].
    unfold updateTypingIndicator, JsSet.to_array, JsSet.add.
    destruct (JsSet.has _ ts) eqn:E.
    + apply JsSet_has_elem in E. destruct ts; [by apply elem_of_nil in E | done].
    + by destruct ts.
Qed.

Lemma disconnect_leaves_typing_set_witness :
  let s := joined "a" "alice" 1 (on_connection "b" (on_connection "a" initial)) in
  exists out1 s2 out2,
    step (InTyping "a" (typing_payload true)) s = Normal (s, out1) /\
    step (InDisconnect "a" 2) s = Normal (s2, out2) /\
    ("alice" ∈ receive_typing out2 (receive_typing out1 JsSet.empty)).
Proof.
  intros s.
  destruct (disconnect_leaves_typing_set "a" 2 s) as (_ & out1 & s2 & out2 & H1 & H2 & H).
  - split; reflexivity.
  - exists out1, s2, out2. split; [exact H1|]. split; [exact H2|].
    apply (H JsSet.empty).
Defined.

(** ** The users panel of a client *)

Lemma filter_out_one (x : string) (l : list string) :
  NoDup l -> x ∈ l ->
  length (List.filter (fun u => negb (String.eqb u x)) l) = (length l - 1)%nat.
Proof.
  induction l as [|y r IH]; intros Hnd Hx; [by apply elem_of_nil in Hx|].
  apply NoDup_cons in Hnd as [Hy Hr]. simpl.
  destruct (String.eqb_spec y x) as [->|Hne]; simpl.
  - rewrite Nat.sub_0_r. clear IH Hx Hr.
    induction r as [|z r IH]; [done|]. simpl.
    apply not_elem_of_cons in Hy as [Hz Hy].
    rewrite (proj2 (String.eqb_neq z x)) by done. simpl. by rewrite IH.
  - apply elem_of_cons in Hx as [->|Hx]; [done|].
    rewrite (IH Hr Hx). destruct r; [by apply elem_of_nil in Hx | simpl; lia].
Qed.

Lemma panel_rows_update users c :
  panel_rows (updateUsersList users c) =
  List.filter (fun u => negb (is_current u c)) users.
Proof.
  unfold panel_rows, updateUsersList. simpl. rewrite flat_map_app.
  assert (flat_map (fun it => match it with UserRow n => [n] | EmptyNotice => [] end)
            (if (length users =? 1)%nat then [EmptyNotice] else []) = []) as ->
    by (by destruct (length users =? 1)%nat).
  rewrite app_nil_r.
  induction (List.filter (fun u => negb (is_current u c)) users) as [|u r IH];
    [done | simpl; by rewrite IH].
Qed.

(** X17: [updateUsersList] shows the length of the roster as the user
    count, and one row for each roster name other than the client's own, in
    roster order; the client's own name gets no row. When the roster has no
    repeated name and contains the client's name, there is one row less
    than the count. The "No other users online" notice is shown exactly
    when the roster has one name, whether or not that name got a row. *)
Theorem users_panel_lists_the_others users c :
  let p := updateUsersList users c in
  userCount p = length users /\
  panel_rows p `sublist_of` users /\
  (forall u, u ∈ panel_rows p <-> u ∈ users /\ currentUser c <> Some u) /\
  (forall n, currentUser c = Some n -> NoDup users -> n ∈ users ->
     length (panel_rows p) = (userCount p - 1)%nat) /\
  (EmptyNotice ∈ usersList p <-> length users = 1%nat).
Proof.
  intros p. unfold p. split; [done|]. split; [|split; [|split]].
  - rewrite panel_rows_update. induction users as [|u r IH]; simpl; [done|].
    destruct (negb (is_current u c)); [by apply sublist_skip | by apply sublist_cons].
  - intros u. rewrite panel_rows_update, list_elem_of_In, filter_In, <- list_elem_of_In.
    unfold is_current. destruct (currentUser c) as [n|]; simpl.
    + destruct (String.eqb_spec u n) as [->|Hne]; simpl.
      * split; [by intros [_ ?] | by intros [_ ?]].
      * split; [intros [? _]; split; [done | congruence] | by intros [? _]].
    + split; [by intros [? _] | by intros [? _]].
  - intros n Hn Hnd Hin. rewrite panel_rows_update. simpl.
    unfold is_current. rewrite Hn. by apply filter_out_one.
  - unfold updateUsersList. simpl. rewrite elem_of_app. split.
    + intros [H|H].
      * apply list_elem_of_fmap in H as (u & ? & _). discriminate.
      * destruct (Nat.eqb_spec (length users) 1) as [E|E]; [done|].
        by apply elem_of_nil in H.
    + intros E. right. rewrite E. simpl. apply list_elem_of_singleton. done.
Qed.

Lemma users_panel_lists_the_others_witness :
  let c := {| currentUser := Some "bob"; joinModalHidden := true |} in
  length (panel_rows (updateUsersList ["alice"; "bob"; "carol"] c)) = 2%nat /\
  usersList (updateUsersList ["alice"] {| currentUser := None; joinModalHidden := false |})
    = [UserRow "alice"; EmptyNotice].
Proof.
  intros c. split; [|reflexivity].
  destruct (users_panel_lists_the_others ["alice"; "bob"; "carol"] c)
    as (_ & _ & _ & Hrows & _).
  apply (Hrows "bob" eq_refl).
  - apply (bool_decide_unpack _). vm_compute. exact I.
  - apply elem_of_cons. right. apply elem_of_cons. by left.
Defined.

(** ** The storage badge *)

(** X18: the badge the client shows for an [/api/messages] response reads
    "Database Mode" exactly when the server is connected to the store and
    the query resolved; in every other case, the fallback after a rejected
    query included, it reads "Memory Mode". *)
Theorem storage_badge_follows_source find_fault s :
  (updateStorageMode (source (api_messages find_fault s)) = "Database Mode" <->
   isDbConnected s = true /\ find_fault = false) /\
  (updateStorageMode (source (api_messages find_fault s)) = "Memory Mode" <->
   isDbConnected s = false \/ find_fault = true).
Proof.
  unfold updateStorageMode, api_messages, db_find_recent.
  destruct (isDbConnected s), find_fault; simpl; split; split;
    try done; try (by intros [? ?]); try (by intros [?|?]); try (by left); by right.
Qed.

(** ** Whose message is it *)

(** X19: the [new-message] a [send-message] step broadcasts names the
    sending socket as its author. A client whose current user is that name
    therefore shows the message as sent, be it the sender itself or another
    connection that joined under the same name, and every other client
    shows it as received. *)
Theorem own_messages_are_shown_as_sent sid data now save_fault s s' out t m n :
  step (InSendMessage sid data now save_fault) s = Normal (s', out) ->
  OutEmit (t, EvNewMessage m) ∈ out ->
  username_of s sid = Some n ->
  username m = n /\
  (forall c, currentUser c = Some n -> message_side m c = SentSide) /\
  (forall c, currentUser c <> Some n -> message_side m c = ReceivedSide).
Proof.
  intros Hstep Hin Hu.
  assert (username m = n) as Hm.
  { simpl in Hstep. destruct (is_connected s sid);
      [|injection Hstep as <- <-; by apply elem_of_nil in Hin].
    apply emitted_inv in Hstep as (em & Hh & ->).
    apply list_elem_of_fmap in Hin as ([t0 e0] & [= <- <-] & Hin).
    apply on_send_message_inv in Hh
      as [(_ & _ & ->)|[(_ & ->)|(k & body & Hk & _ & _ & _ & _ & ->)]].
    - apply list_elem_of_singleton in Hin. discriminate.
    - by apply elem_of_nil in Hin.
    - apply list_elem_of_singleton in Hin. injection Hin as _ ->. simpl. congruence. }
  split; [done|]. unfold message_side, is_current. rewrite Hm. split.
  - intros c ->. by rewrite String.eqb_refl.
  - intros c Hc. destruct (currentUser c) as [k|]; [|done].
    destruct (String.eqb_spec n k) as [->|Hne]; [done | done].
Qed.

Lemma own_messages_are_shown_as_sent_witness :
  let s := joined "a" "alice" 1 (on_connection "a" initial) in
  let m := {| username := "alice"; message := "hi"; timestamp := 2 |} in
  message_side m {| currentUser := Some "alice"; joinModalHidden := true |} = SentSide /\
  message_side m {| currentUser := Some "bob"; joinModalHidden := true |} = ReceivedSide.
Proof.
  intros s m.
  assert (exists s', step (InSendMessage "a" (message_payload "hi") 2 false) s
                     = Normal (s', [OutEmit (ToAll, EvNewMessage m)])) as (s' & Hstep)
    by (eexists; vm_compute; reflexivity).
  destruct (own_messages_are_shown_as_sent "a" (message_payload "hi") 2 false s s'
              [OutEmit (ToAll, EvNewMessage m)] ToAll m "alice" Hstep)
    as (_ & Hsent & Hrecv).
  - apply list_elem_of_singleton. reflexivity.
  - reflexivity.
  - split; [by apply Hsent | apply Hrecv; discriminate].
Defined.

(** ** Sending, then asking for the recent messages *)

Lemma slice_last_last {A : Type} n (l : list A) x :
  (0 < n)%nat -> last (slice_last n (l ++ [x])) = Some x.
Proof.
  intros Hn. unfold slice_last.
  rewrite drop_app_le by (rewrite length_app; simpl; lia).
  apply last_snoc.
Qed.

(** X20: while the store is not connected, the handler of [send-message]
    has no suspension point, and the [/api/messages] response that follows
    a validated send has source [memory] and ends with the message just
    sent: its messages are the last 50 of the old buffer with that message
    added at its end. *)
Theorem sent_message_is_latest_in_query sid data body now save_fault find_fault s :
  Active s sid ->
  get_prop data "message" = Normal (JStr body) ->
  trim body <> "" ->
  isDbConnected s = false ->
  exists s' m,
    step (InSendMessage sid data now save_fault) s =
      Normal (s', [OutEmit (ToAll, EvNewMessage m)]) /\
    send_message_start sid data now s =
      Normal (s', [(ToAll, EvNewMessage m)], Returned) /\
    source (api_messages find_fault s') = "memory" /\
    messages (api_messages find_fault s') = slice_last 50 (memoryMessages s ++ [m]) /\
    last (messages (api_messages find_fault s')) = Some m.
Proof.
  intros [Hc Hu] Hd Hb Hdb.
  pose proof (on_send_message_valid sid data body now save_fault s Hu Hd Hb) as E.
  simpl in E.
  set (m := {| username := name_or_empty (username_of s sid);
               message := trim body; timestamp := now |}) in *.
  assert (try_save save_fault m
            (set_memoryMessages (push_message m (memoryMessages s)) s)
          = set_memoryMessages (push_message m (memoryMessages s)) s) as Hsave
    by (unfold try_save; simpl; by rewrite Hdb).
  rewrite Hsave in E.
  exists (set_memoryMessages (push_message m (memoryMessages s)) s), m.
  split; [simpl; by rewrite Hc, E|].
  split.
  { unfold send_message_start. rewrite Hu, Hd. simpl.
    rewrite (eqb_empty_false _ Hb). fold m. by rewrite Hdb. }
  unfold api_messages. simpl. rewrite Hdb. simpl.
  split; [done|].
  rewrite push_message_slice, slice_last_slice by lia.
  split; [done | apply slice_last_last; lia].
Qed.

Lemma sent_message_is_latest_in_query_witness :
  let s := joined "a" "alice" 1 (on_connection "a" (boot
             [{| username := "zed"; message := "old"; timestamp := 1 |}])) in
  exists s' m,
    step (InSendMessage "a" (message_payload "hi") 5 false) s =
      Normal (s', [OutEmit (ToAll, EvNewMessage m)]) /\
    source (api_messages false s') = "memory" /\
    last (messages (api_messages false s')) = Some m.
Proof.
  intros s.
  destruct (sent_message_is_latest_in_query "a" (message_payload "hi") "hi" 5 false false s)
    as (s' & m & Hstep & _ & Hsrc & _ & Hlast).
  - split; reflexivity.
  - reflexivity.
  - vm_compute. discriminate.
  - reflexivity.
  - by exists s', m.
Defined.

(** ** What a step pushes and what it broadcasts *)

Lemma new_messages_app o1 o2 :
  new_messages (o1 ++ o2) = new_messages o1 ++ new_messages o2.
Proof.
  unfold new_messages, emissions. by rewrite flat_map_app, flat_map_app.
Qed.

Lemma step_new_messages i s s' out :
  step i s = Normal (s', out) ->
  (new_messages out = [] /\ memoryMessages s' = memoryMessages s) \/
  (exists m, new_messages out = [m] /\
             memoryMessages s' = push_message m (memoryMessages s)).
Proof.
  destruct i as [ok|sid|sid p t1 t2|sid d now f|sid d|sid now|f|]; simpl.
  - intros [= <- <-]. left. split; [done|]. unfold connectDB. by destruct ok.
  - intros [= <- <-]. left. split; [done | apply on_connection_frame].
  - destruct (is_connected s sid); [|intros [= <- <-]; by left].
    intros H. apply emitted_inv in H as (em & H & ->). left.
    unfold new_messages. rewrite emissions_map.
    apply on_join_inv in H as [(-> & ->)|(x & _ & _ & -> & ->)]; by split.
  - destruct (is_connected s sid); [|intros [= <- <-]; by left].
    intros H. apply emitted_inv in H as (em & H & ->).
    unfold new_messages. rewrite emissions_map.
    apply on_send_message_inv in H
      as [(_ & -> & ->)|[(-> & ->)|(n & body & _ & _ & _ & _ & -> & ->)]];
      [by left | by left |].
    right. eexists. split; [done|]. by rewrite try_save_memoryMessages.
  - destruct (is_connected s sid); [|intros [= <- <-]; by left].
    intros H. apply emitted_inv in H as (em & H & ->). left.
    unfold new_messages. rewrite emissions_map.
    apply on_typing_inv in H as (-> & [->|(n & flag & _ & _ & ->)]); by split.
  - destruct (is_connected s sid); [|intros [= <- <-]; by left].
    intros H. apply emitted_inv in H as (em & H & ->). left.
    unfold new_messages. rewrite emissions_map.
    apply on_disconnect_inv in H as [(-> & ->)|(n & _ & _ & -> & ->)];
      (split; [done | apply close_socket_frame]).
  - intros [= <- <-]. by left.
  - intros [= <- <-]. by left.
Qed.

(** ** [send-message] at its suspension point *)

Lemma send_message_start_inv sid data now s s1 out susp :
  send_message_start sid data now s = Normal (s1, out, susp) ->
  (s1 = s /\ susp = Returned /\
   (out = [(ToSocket sid, EvError "You must join first")] \/ out = [])) \/
  (exists m,
     timestamp m = now /\
     s1 = set_memoryMessages (push_message m (memoryMessages s)) s /\
     ((isDbConnected s = true /\ out = [] /\ susp = AwaitingSave m) \/
      (isDbConnected s = false /\ out = [(ToAll, EvNewMessage m)] /\
       susp = Returned))).
Proof.
  unfold send_message_start.
  destruct (truthy_name (username_of s sid)); simpl;
    [|intros [= <- <- <-]; left; split; [done|]; split; [done | by left]].
  destruct (get_prop data "message") as [field|e]; simpl; [|done].
  destruct (call_trim field) as [body|e]; simpl; [|done].
  destruct (String.eqb body "");
    [intros [= <- <- <-]; left; split; [done|]; split; [done | by right]|].
  destruct (isDbConnected s) eqn:Hdb; intros [= <- <- <-]; right;
    (eexists; split; [|split; [reflexivity|]]; [reflexivity|]).
  - left. by split.
  - right. by split.
Qed.

Lemma on_send_message_split sid data now save_fault s :
  on_send_message sid data now save_fault s =
  (r ← send_message_start sid data now s;
   Normal (match snd r with
           | Returned => (fst (fst r), snd (fst r))
           | AwaitingSave m =>
               (fst (send_message_settle save_fault m (fst (fst r))),
                snd (fst r) ++ snd (send_message_settle save_fault m (fst (fst r))))
           end)).
Proof.
  unfold on_send_message, send_message_start.
  destruct (truthy_name (username_of s sid)); simpl; [|done].
  destruct (get_prop data "message") as [field|e]; simpl; [|done].
  destruct (call_trim field) as [body|e]; simpl; [|done].
  destruct (String.eqb body ""); [done|].
  unfold try_save, send_message_settle. simpl.
  destruct (isDbConnected s); simpl; [|done].
  by destruct (db_save save_fault _ (collection s)).
Qed.

(** X22: with the store connected, a validated [send-message] pushes its
    message onto the buffer and then suspends without having emitted
    anything and without having touched the store: the message is the last
    entry of the buffer while its save is pending. When the save settles,
    whenever that is and whether it resolved or rejected, the handler emits
    one [new-message] to all for that message and leaves the buffer as it
    then is; the store gains the message exactly when the save resolved.
    The handler that [step] runs in one piece is the first part followed at
    once by the second. *)
Theorem send_message_suspends_between_push_and_emit sid data body now s :
  Active s sid ->
  get_prop data "message" = Normal (JStr body) ->
  trim body <> "" ->
  isDbConnected s = true ->
  let m := {| username := name_or_empty (username_of s sid);
              message := trim body;
              timestamp := now |} in
  exists s1,
    send_message_start sid data now s = Normal (s1, [], AwaitingSave m) /\
    memoryMessages s1 = push_message m (memoryMessages s) /\
    last (memoryMessages s1) = Some m /\
    collection s1 = collection s /\
    (forall save_fault s2,
       snd (send_message_settle save_fault m s2) = [(ToAll, EvNewMessage m)] /\
       memoryMessages (fst (send_message_settle save_fault m s2)) = memoryMessages s2 /\
       activeUsers (fst (send_message_settle save_fault m s2)) = activeUsers s2 /\
       sockets (fst (send_message_settle save_fault m s2)) = sockets s2 /\
       collection (fst (send_message_settle save_fault m s2)) =
         (if save_fault then collection s2 else collection s2 ++ [m])) /\
    (forall save_fault,
       on_send_message sid data now save_fault s =
         Normal (fst (send_message_settle save_fault m s1),
                 snd (send_message_settle save_fault m s1))).
Proof.
  intros [Hc Hu] Hd Hb Hdb m.
  assert (send_message_start sid data now s =
          Normal (set_memoryMessages (push_message m (memoryMessages s)) s, [],
                  AwaitingSave m)) as E.
  { unfold send_message_start. rewrite Hu, Hd. simpl.
    rewrite (eqb_empty_false _ Hb). fold m. by rewrite Hdb. }
  exists (set_memoryMessages (push_message m (memoryMessages s)) s).
  split; [exact E|]. split; [done|]. split; [apply push_message_last|].
  split; [done|]. split.
  - intros save_fault s2. unfold send_message_settle, db_save.
    by destruct save_fault.
  - intros save_fault. rewrite on_send_message_split, E. reflexivity.
Qed.

Lemma send_message_suspends_between_push_and_emit_witness :
  let s := connectDB true (joined "a" "alice" 1 (on_connection "a" initial)) in
  let m := {| username := "alice"; message := "hi"; timestamp := 2 |} in
  exists s1,
    send_message_start "a" (message_payload " hi ") 2 s = Normal (s1, [], AwaitingSave m) /\
    memoryMessages s1 = [m] /\
    collection s1 = [].
Proof.
  intros s m.
  destruct (send_message_suspends_between_push_and_emit
              "a" (message_payload " hi ") " hi " 2 s)
    as (s1 & Hstart & Hbuf & _ & Hcoll & _).
  - split; reflexivity.
  - reflexivity.
  - vm_compute. discriminate.
  - reflexivity.
  - exists s1. split; [exact Hstart|]. split; [exact Hbuf | exact Hcoll].
Defined.

(** ** Interleaved sends *)

Lemma interleave_cons_inv a rest p p' out :
  interleave (a :: rest) p = Normal (p', out) ->
  exists p1 o1 o2,
    act a p = Normal (p1, o1) /\ interleave rest p1 = Normal (p', o2) /\
    out = o1 ++ o2.
Proof.
  cbn [interleave]. destruct (act a p) as [[p1 o1]|e]; cbn; [|done].
  destruct (interleave rest p1) as [[p2 o2]|e] eqn:E2; cbn; [|done].
  intros [= <- <-]. by exists p1, o1, o2.
Qed.

(** What one action does to the buffer, to the history of pushes and to the
    suspended handlers. *)
Lemma act_buffer a p p' o broadcast :
  act a p = Normal (p', o) ->
  memoryMessages (server p) = slice_last 100 (pushed p) ->
  pushed p ≡ₚ broadcast ++ awaiting p ->
  memoryMessages (server p') = slice_last 100 (pushed p') /\
  pushed p' ≡ₚ (broadcast ++ new_messages o) ++ awaiting p'.
Proof.
  intros Hact Hbuf Hperm.
  assert (forall m,
            push_message m (memoryMessages (server p)) = slice_last 100 (pushed p ++ [m]))
    as Hpush
    by (intros m; by rewrite push_message_slice, Hbuf, slice_last_app_slice).
  destruct a as [i|sid data now|k save_fault]; simpl in Hact.
  - destruct (step i (server p)) as [[s1 o1]|e] eqn:E; simpl in Hact; [|done].
    injection Hact as <- <-. simpl.
    apply step_new_messages in E as [(-> & ->)|(m & -> & ->)].
    + rewrite !app_nil_r. by split.
    + split; [apply Hpush|]. rewrite Hperm.
      rewrite <- !app_assoc. apply Permutation_app_head, Permutation_app_comm.
  - destruct (is_connected (server p) sid);
      [|injection Hact as <- <-; unfold new_messages; simpl;
        rewrite app_nil_r; by split].
    destruct (send_message_start sid data now (server p)) as [[[s1 em] susp]|e] eqn:E;
      simpl in Hact; [|done].
    injection Hact as <- <-.
    apply send_message_start_inv in E
      as [(-> & -> & Hout)|(m & _ & -> & [(_ & -> & ->)|(_ & -> & ->)])]; simpl.
    + assert (new_messages (map OutEmit em) = []) as ->
        by (destruct Hout as [->| ->]; reflexivity).
      rewrite !app_nil_r. by split.
    + unfold new_messages. simpl. rewrite app_nil_r.
      split; [apply Hpush|]. rewrite Hperm. by rewrite app_assoc.
    + change (new_messages [OutEmit (ToAll, EvNewMessage m)]) with [m].
      split; [apply Hpush|]. rewrite Hperm.
      rewrite <- !app_assoc. apply Permutation_app_head, Permutation_app_comm.
  - destruct (awaiting p !! k) as [m|] eqn:Hk;
      [|injection Hact as <- <-; unfold new_messages; simpl;
        rewrite app_nil_r; by split].
    injection Hact as <- <-. simpl.
    change (new_messages [OutEmit (ToAll, EvNewMessage m)]) with [m].
    split.
    + unfold db_save. by destruct save_fault.
    + rewrite Hperm, <- app_assoc.
      apply Permutation_app_head, (delete_Permutation _ _ _ Hk).
Qed.

(** While no [connectDB] has succeeded no handler suspends, and the order
    of the broadcasts is the order of the pushes. *)
Lemma act_never_connected a p p' o broadcast :
  act a p = Normal (p', o) ->
  a <> Handle (InConnectDB true) ->
  isDbConnected (server p) = false ->
  awaiting p = [] ->
  pushed p = broadcast ->
  isDbConnected (server p') = false /\ awaiting p' = [] /\
  pushed p' = broadcast ++ new_messages o.
Proof.
  intros Hact Hno Hdb Haw Hpushed.
  destruct a as [i|sid data now|k save_fault]; simpl in Hact.
  - destruct (step i (server p)) as [[s1 o1]|e] eqn:E; simpl in Hact; [|done].
    injection Hact as <- <-. simpl. rewrite Hpushed. split; [|by split].
    destruct (is_request i) eqn:Hreq.
    + rewrite <- Hdb. by apply (step_isDbConnected i (server p) s1 o1).
    + destruct i as [[]| | | | | | |]; try discriminate; [done|].
      simpl in E. by injection E as <- <-.
  - destruct (is_connected (server p) sid);
      [|injection Hact as <- <-; unfold new_messages; simpl;
        rewrite app_nil_r; by split].
    destruct (send_message_start sid data now (server p)) as [[[s1 em] susp]|e] eqn:E;
      simpl in Hact; [|done].
    injection Hact as <- <-.
    apply send_message_start_inv in E
      as [(-> & -> & Hout)|(m & _ & -> & [(Hc & _)|(_ & -> & ->)])]; simpl.
    + rewrite Hpushed. by split.
    + congruence.
    + rewrite Hpushed. by split.
  - rewrite Haw in Hact. simpl in Hact. injection Hact as <- <-.
    unfold new_messages. simpl. rewrite app_nil_r. by split.
Qed.

(** X21: in every state the process reaches with the handlers of
    [send-message] interleaved, the buffer is the last 100 of the messages
    pushed, in the order their handlers pushed them, and the messages
    pushed are, up to order, those broadcast as [new-message] together with
    those whose save is still pending: each is broadcast once, after its
    save settles. The order of the broadcasts is the order of the pushes,
    and the buffer the last 100 messages broadcast, in every run in which no
    [connectDB] has succeeded; with the store connected the two orders can
    differ. *)
Theorem buffer_keeps_push_order docs acts p out :
  interleave acts (fresh docs) = Normal (p, out) ->
  memoryMessages (server p) = slice_last 100 (pushed p) /\
  pushed p ≡ₚ new_messages out ++ awaiting p /\
  (Forall (fun a => a <> Handle (InConnectDB true)) acts ->
   awaiting p = [] /\
   new_messages out = pushed p /\
   memoryMessages (server p) = slice_last 100 (new_messages out)).
Proof.
  assert (forall acts p0 p out broadcast,
            interleave acts p0 = Normal (p, out) ->
            memoryMessages (server p0) = slice_last 100 (pushed p0) ->
            pushed p0 ≡ₚ broadcast ++ awaiting p0 ->
            memoryMessages (server p) = slice_last 100 (pushed p) /\
            pushed p ≡ₚ (broadcast ++ new_messages out) ++ awaiting p) as Hgen.
  { clear. induction acts as [|a rest IH]; intros p0 p out broadcast Hrun Hbuf Hperm.
    - injection Hrun as <- <-. unfold new_messages. simpl.
      rewrite app_nil_r. by split.
    - apply interleave_cons_inv in Hrun as (p1 & o1 & o2 & E1 & E2 & ->).
      destruct (act_buffer a p0 p1 o1 broadcast E1 Hbuf Hperm) as [Hbuf1 Hperm1].
      destruct (IH p1 p o2 _ E2 Hbuf1 Hperm1) as [Hbuf2 Hperm2].
      split; [done|]. by rewrite new_messages_app, app_assoc. }
  assert (forall acts p0 p out broadcast,
            interleave acts p0 = Normal (p, out) ->
            Forall (fun a => a <> Handle (InConnectDB true)) acts ->
            isDbConnected (server p0) = false ->
            awaiting p0 = [] ->
            pushed p0 = broadcast ->
            awaiting p = [] /\ pushed p = broadcast ++ new_messages out) as Hnever.
  { clear. induction acts as [|a rest IH];
      intros p0 p out broadcast Hrun Hno Hdb Haw Hpushed.
    - injection Hrun as <- <-. unfold new_messages. simpl.
      rewrite app_nil_r. by split.
    - apply interleave_cons_inv in Hrun as (p1 & o1 & o2 & E1 & E2 & ->).
      apply Forall_cons in Hno as [Ha Hrest].
      destruct (act_never_connected a p0 p1 o1 broadcast E1 Ha Hdb Haw Hpushed)
        as (Hdb1 & Haw1 & Hpushed1).
      destruct (IH p1 p o2 _ E2 Hrest Hdb1 Haw1 Hpushed1) as [Haw2 Hpushed2].
      split; [done|]. by rewrite new_messages_app, app_assoc. }
  intros Hrun.
  destruct (Hgen acts (fresh docs) p out [] Hrun eq_refl) as [Hbuf Hperm]; [done|].
  split; [exact Hbuf|]. split; [exact Hperm|].
  intros Hno.
  destruct (Hnever acts (fresh docs) p out [] Hrun Hno eq_refl eq_refl eq_refl)
    as [Haw Hpushed].
  simpl in Hpushed. split; [done|]. split; [done|]. by rewrite Hbuf, Hpushed.
Qed.

Lemma buffer_keeps_push_order_witness :
  let one := {| username := "alice"; message := "one"; timestamp := 1 |} in
  let two := {| username := "bob"; message := "two"; timestamp := 2 |} in
  exists p out,
    interleave [Handle (InConnectDB true);
                Handle (InConnection "a"); Handle (InJoin "a" (JStr "alice") 0 0);
                Handle (InConnection "b"); Handle (InJoin "b" (JStr "bob") 0 0);
                SendStarts "a" (message_payload "one") 1;
                SendStarts "b" (message_payload "two") 2;
                SaveSettles 1 false;
                SaveSettles 0 false] (fresh []) = Normal (p, out) /\
    memoryMessages (server p) = [one; two] /\
    new_messages out = [two; one] /\
    collection (server p) = [two; one] /\
    memoryMessages (server p) = slice_last 100 (pushed p) /\
    pushed p ≡ₚ new_messages out ++ awaiting p.
Proof.
  intros one two.
  assert (exists p out,
            interleave [Handle (InConnectDB true);
                        Handle (InConnection "a"); Handle (InJoin "a" (JStr "alice") 0 0);
                        Handle (InConnection "b"); Handle (InJoin "b" (JStr "bob") 0 0);
                        SendStarts "a" (message_payload "one") 1;
                        SendStarts "b" (message_payload "two") 2;
                        SaveSettles 1 false;
                        SaveSettles 0 false] (fresh []) = Normal (p, out) /\
            memoryMessages (server p) = [one; two] /\
            new_messages out = [two; one] /\
            collection (server p) = [two; one])
    as (p & out & Hrun & Hbuf & Hout & Hcoll)
    by (eexists _, _; split; [|split; [|split]]; vm_compute; reflexivity).
  exists p, out. split; [exact Hrun|]. split; [exact Hbuf|].
  split; [exact Hout|]. split; [exact Hcoll|].
  destruct (buffer_keeps_push_order [] _ p out Hrun) as (H1 & H2 & _).
  by split.
Defined.
